(** * Graph analytics orchestrator

    A shallow embedding of [graph_analytics_orchestrator/gae_orchestrator.py]
    (the workflow state machine [GAEOrchestrator.run_analysis], its job poller
    [_wait_for_job] and its retry classifier [_is_retryable_error]), of the
    base-class methods of [gae_connection.py] the orchestrator goes through
    ([GAEConnectionBase.load_graph], [store_results]) and of the second poller
    [GenAIGAEConnection.wait_for_job].

    The engine backend, the database and the clock are external: they are the
    operations of the class [GAEConnection] over an abstract world [W].  The
    orchestrator is a program in a state-and-exception monad over that world;
    every backend call, every assignment to [result.status] and the log lines
    that matter are recorded in a trace. *)

From Stdlib Require Import ZArith String List Ascii Bool Lia.
From Stdlib Require Import Floats.PrimFloat Numbers.Cyclic.Int63.Uint63.
From stdpp Require Import gmap strings pretty.

#[local] Set Warnings "-register-all,-inexact-float".
#[local] Open Scope string_scope.
#[local] Open Scope list_scope.
#[local] Open Scope Z_scope.

(** ** Python values *)

(** The JSON-like values that travel in job records, engine descriptors and
    request payloads.  JSON numbers are taken as integers. *)
Inductive value : Type :=
  | VNone
  | VBool (b : bool)
  | VInt (z : Z)
  | VStr (s : string)
  | VList (l : list value)
  | VDict (d : gmap string value).

Abbreviation dict := (gmap string value).

Module Py.

(** [bool(v)] *)
Definition truthy (v : value) : bool :=
  match v with
  | VNone => false
  | VBool b => b
  | VInt z => negb (z =? 0)
  | VStr s => negb (String.eqb s "")
  | VList l => match l with [] => false | _ => true end
  | VDict d => match map_to_list d with [] => false | _ => true end
  end.

(** [a or b] *)
Definition or (a b : value) : value := if truthy a then a else b.

(** [d.get(k)] and [d.get(k, dflt)] *)
Definition get (d : dict) (k : string) : value := default VNone (d !! k).
Definition get_default (d : dict) (k : string) (dflt : value) : value :=
  default dflt (d !! k).

(** [type(v).__name__] *)
Definition type_name (v : value) : string :=
  match v with
  | VNone => "NoneType"
  | VBool _ => "bool"
  | VInt _ => "int"
  | VStr _ => "str"
  | VList _ => "list"
  | VDict _ => "dict"
  end.

(** [repr(s)] for a string: in single quotes, or in double quotes when
    the string has a single quote and no double quote; the backslash, the
    quote in use and the control characters of ASCII are escaped.
    Characters outside ASCII are taken as printable. *)
Definition hex_digit (n : N) : ascii :=
  ascii_of_N (if (n <? 10)%N then 48 + n else 87 + n).

Definition repr_char (quote c : ascii) : string :=
  let n := N_of_ascii c in
  if (n =? 92)%N then "\\"
  else if Ascii.eqb c quote then String "092" (String quote EmptyString)
  else if (n =? 9)%N then "\t"
  else if (n =? 10)%N then "\n"
  else if (n =? 13)%N then "\r"
  else if ((n <? 32) || (n =? 127))%N
       then String "092" (String "x" (String (hex_digit (n / 16))
                                        (String (hex_digit (n mod 16)) EmptyString)))
  else String c EmptyString.

Fixpoint has_char (c : ascii) (s : string) : bool :=
  match s with
  | EmptyString => false
  | String d s' => Ascii.eqb c d || has_char c s'
  end.

Fixpoint escaped (quote : ascii) (s : string) : string :=
  match s with
  | EmptyString => EmptyString
  | String c s' => repr_char quote c +:+ escaped quote s'
  end.

Definition repr_str (s : string) : string :=
  let quote : ascii :=
    if has_char "'" s && negb (has_char "034" s) then "034"%char else "'"%char in
  String quote (escaped quote s +:+ String quote EmptyString).

Fixpoint joined (l : list string) : string :=
  match l with
  | [] => ""
  | [x] => x
  | x :: l' => x +:+ ", " +:+ joined l'
  end.

(** [repr(v)].  The entries of a dictionary come in the order of the map,
    which need not be the order in which the record listed them. *)
Fixpoint repr (v : value) : string :=
  match v with
  | VNone => "None"
  | VBool true => "True"
  | VBool false => "False"
  | VInt z => pretty z
  | VStr s => repr_str s
  | VList l =>
      "[" +:+ joined ((fix go (l : list value) : list string :=
                         match l with
                         | [] => []
                         | x :: l' => repr x :: go l'
                         end) l) +:+ "]"
  | VDict d =>
      "{" +:+ joined (map_fold (fun k x acc => (repr_str k +:+ ": " +:+ repr x) :: acc) [] d)
      +:+ "}"
  end.

(** [str(v)], as an f-string renders it: a string as it is, any other
    value as [repr] gives it. *)
Definition str (v : value) : string :=
  match v with
  | VStr s => s
  | _ => repr v
  end.

(** [v == s] for a string literal [s] *)
Definition eq_str (v : value) (s : string) : bool :=
  match v with
  | VStr t => String.eqb t s
  | _ => false
  end.

(** [v in [s1, s2, ...]] for a list of string literals *)
Definition in_strs (v : value) (l : list string) : bool := existsb (eq_str v) l.

(** The integer a number stands for ([bool] is a subclass of [int]). *)
Definition as_int (v : value) : option Z :=
  match v with
  | VInt z => Some z
  | VBool b => Some (if b then 1 else 0)
  | _ => None
  end.

(** [a == b] *)
Fixpoint eq (a b : value) {struct a} : bool :=
  match a, b with
  | VNone, VNone => true
  | VStr s, VStr t => String.eqb s t
  | VList l1, VList l2 =>
      (fix go (l1 l2 : list value) : bool :=
         match l1, l2 with
         | [], [] => true
         | x :: l1, y :: l2 => eq x y && go l1 l2
         | _, _ => false
         end) l1 l2
  | VDict d1, VDict d2 =>
      map_fold (fun k x acc =>
                  acc && match d2 !! k with Some y => eq x y | None => false end) true d1
      && bool_decide (dom d1 = dom d2)
  | _, _ =>
      match as_int a, as_int b with
      | Some x, Some y => x =? y
      | _, _ => false
      end
  end.

(** What an ordering comparison gives: a truth value, or the [TypeError]
    of two operands that have no order. *)
Inductive ordering : Type :=
  | Ordered (b : bool)
  | Unordered (x y : value).

(** An ordering comparison: numbers by value, strings lexicographically,
    lists by their first pair of unequal elements, or by their lengths
    when one is a prefix of the other. *)
Fixpoint order (num : Z -> Z -> bool) (text : string -> string -> bool)
    (len : nat -> nat -> bool) (a b : value) {struct a} : ordering :=
  match as_int a, as_int b with
  | Some x, Some y => Ordered (num x y)
  | _, _ =>
      match a, b with
      | VStr s, VStr t => Ordered (text s t)
      | VList l1, VList l2 =>
          (fix go (l1 l2 : list value) : ordering :=
             match l1, l2 with
             | x :: l1', y :: l2' =>
                 if eq x y then go l1' l2' else order num text len x y
             | _, _ => Ordered (len (length l1) (length l2))
             end) l1 l2
      | _, _ => Unordered a b
      end
  end.

(** [a >= b] and [a > b] *)
Definition ge : value -> value -> ordering :=
  order (fun x y => y <=? x) (fun s t => String.leb t s) (fun n m => (m <=? n)%nat).

Definition gt : value -> value -> ordering :=
  order (fun x y => y <? x) (fun s t => String.ltb t s) (fun n m => (m <? n)%nat).

(** [c.lower()] for a character of ASCII; other bytes are left as they
    are. *)
Definition lower_ascii (c : ascii) : ascii :=
  let n := N_of_ascii c in
  if ((65 <=? n) && (n <=? 90))%N then ascii_of_N (n + 32) else c.

(** A string is held as its UTF-8 text.  U+212A KELVIN SIGN is the bytes
    226 132 170 and U+0130 LATIN CAPITAL LETTER I WITH DOT ABOVE the
    bytes 196 176. *)
Definition kelvin_sign : string := String "226" (String "132" (String "170" EmptyString)).
Definition dotted_capital_i : string := String "196" (String "176" EmptyString).

Definition is_kelvin_sign (a b c : ascii) : bool :=
  Ascii.eqb a "226" && Ascii.eqb b "132" && Ascii.eqb c "170".
Definition is_dotted_capital_i (a b : ascii) : bool :=
  Ascii.eqb a "196" && Ascii.eqb b "176".

(** [s.lower()], as a search for ASCII text reads it.  The letters of
    ASCII are folded.  Outside ASCII two characters have ASCII in their
    lower-case form: the Kelvin sign becomes [k], and U+0130 becomes [i]
    followed by U+0307 (the bytes 204 135).  The lower-case form of every
    other character is again outside ASCII; such a character is kept as
    it is written, which a text of ASCII characters searched in the
    result, the one use the code makes of it, cannot tell from its
    lower-case form. *)
Fixpoint lower (s : string) : string :=
  match s with
  | EmptyString => EmptyString
  | String a s1 =>
      match s1 with
      | EmptyString => String (lower_ascii a) EmptyString
      | String b s2 =>
          if is_dotted_capital_i a b
          then String "i" (String "204" (String "135" (lower s2)))
          else
            match s2 with
            | EmptyString => String (lower_ascii a) (lower s1)
            | String c s3 =>
                if is_kelvin_sign a b c then String "k" (lower s3)
                else String (lower_ascii a) (lower s1)
            end
      end
  end.

(** [p in s] for strings: [p] occurs in [s] as a contiguous substring. *)
Fixpoint contains (p s : string) : bool :=
  String.prefix p s ||
  match s with
  | EmptyString => false
  | String _ s' => contains p s'
  end.

End Py.

(** ** constants.py *)

Module Constants.
Definition DEFAULT_JOB_TIMEOUT : Z := 3600.
Definition DEFAULT_POLL_INTERVAL : Z := 2.
Definition API_VERSION_PREFIX : string := "v1/".
Definition COMPLETED_STATES : list string := ["done"; "finished"; "completed"; "succeeded"].
Definition FAILED_STATES : list string := ["failed"; "error"].
End Constants.

(** ** Exceptions and outcomes *)

Inductive exn_class : Type :=
  | RuntimeError | ValueError | TimeoutError | KeyError
  | AttributeError | TypeError | OtherException.

(** An exception is its class and [str(e)].  Every class here derives from
    [Exception]. *)
Record exn : Type := mk_exn { exn_cls : exn_class; exn_str : string }.

(** What a call can do: return, raise, or never come back ([Diverge]: a
    hung request, or a polling loop that used up its fuel). *)
Inductive outcome (A : Type) : Type :=
  | Ok (a : A)
  | Raise (e : exn)
  | Diverge.
Arguments Ok {A} a.
Arguments Raise {A} e.
Arguments Diverge {A}.

(** ** The data model of gae_orchestrator.py *)

Inductive AnalysisStatus : Type :=
  | PENDING | ENGINE_DEPLOYING | GRAPH_LOADING | ALGORITHM_RUNNING
  | STORING_RESULTS | COMPLETED | FAILED | CLEANING_UP.

Definition is_terminal (st : AnalysisStatus) : bool :=
  match st with
  | COMPLETED | FAILED => true
  | _ => false
  end.

Module Config.
(** [AnalysisConfig], as [__post_init__] leaves it ([database],
    [result_field] and [algorithm_params] filled in). *)
Record AnalysisConfig : Type := {
  name : string;
  description : string;
  vertex_collections : list string;
  edge_collections : list string;
  vertex_attributes : option (list string);
  database : string;
  algorithm : string;
  algorithm_params : dict;
  result_field : string;
  engine_size : string;
  engine_type : string;
  target_collection : string;
  auto_cleanup : bool;
  retry_on_failure : bool;
  max_retries : Z;
  timeout_seconds : Z;
  estimated_cost_usd : option float
}.
End Config.
Abbreviation AnalysisConfig := Config.AnalysisConfig.

Module Result.
(** [AnalysisResult].  Timestamps are microseconds on the world's clock. *)
Record AnalysisResult : Type := {
  config : AnalysisConfig;
  status : AnalysisStatus;
  start_time : Z;
  end_time : option Z;
  duration_seconds : option float;
  engine_id : value;
  engine_size : string;
  graph_id : value;
  vertex_count : value;
  edge_count : value;
  job_id : value;
  algorithm : string;
  results_stored : bool;
  documents_updated : value;
  estimated_cost_usd : option float;
  engine_runtime_minutes : option float;
  error_message : option string;
  retry_count : Z
}.

(** The dataclass constructor call of [run_analysis]. *)
Definition new (cfg : AnalysisConfig) (start : Z) : AnalysisResult :=
  {| config := cfg; status := PENDING; start_time := start; end_time := None;
     duration_seconds := None; engine_id := VNone;
     engine_size := Config.engine_size cfg; graph_id := VNone;
     vertex_count := VNone; edge_count := VNone; job_id := VNone;
     algorithm := Config.algorithm cfg; results_stored := false;
     documents_updated := VNone; estimated_cost_usd := None;
     engine_runtime_minutes := None; error_message := None; retry_count := 0 |}.

(** Attribute assignments. *)
Definition set_status (x : AnalysisStatus) (r : AnalysisResult) : AnalysisResult :=
  {| config := config r; status := x; start_time := start_time r; end_time := end_time r;
     duration_seconds := duration_seconds r; engine_id := engine_id r;
     engine_size := engine_size r; graph_id := graph_id r; vertex_count := vertex_count r;
     edge_count := edge_count r; job_id := job_id r; algorithm := algorithm r;
     results_stored := results_stored r; documents_updated := documents_updated r;
     estimated_cost_usd := estimated_cost_usd r;
     engine_runtime_minutes := engine_runtime_minutes r;
     error_message := error_message r; retry_count := retry_count r |}.

Definition set_end (t : Z) (d : float) (r : AnalysisResult) : AnalysisResult :=
  {| config := config r; status := status r; start_time := start_time r; end_time := Some t;
     duration_seconds := Some d; engine_id := engine_id r;
     engine_size := engine_size r; graph_id := graph_id r; vertex_count := vertex_count r;
     edge_count := edge_count r; job_id := job_id r; algorithm := algorithm r;
     results_stored := results_stored r; documents_updated := documents_updated r;
     estimated_cost_usd := estimated_cost_usd r;
     engine_runtime_minutes := engine_runtime_minutes r;
     error_message := error_message r; retry_count := retry_count r |}.

Definition set_engine_id (x : value) (r : AnalysisResult) : AnalysisResult :=
  {| config := config r; status := status r; start_time := start_time r; end_time := end_time r;
     duration_seconds := duration_seconds r; engine_id := x;
     engine_size := engine_size r; graph_id := graph_id r; vertex_count := vertex_count r;
     edge_count := edge_count r; job_id := job_id r; algorithm := algorithm r;
     results_stored := results_stored r; documents_updated := documents_updated r;
     estimated_cost_usd := estimated_cost_usd r;
     engine_runtime_minutes := engine_runtime_minutes r;
     error_message := error_message r; retry_count := retry_count r |}.

Definition set_graph_id (x : value) (r : AnalysisResult) : AnalysisResult :=
  {| config := config r; status := status r; start_time := start_time r; end_time := end_time r;
     duration_seconds := duration_seconds r; engine_id := engine_id r;
     engine_size := engine_size r; graph_id := x; vertex_count := vertex_count r;
     edge_count := edge_count r; job_id := job_id r; algorithm := algorithm r;
     results_stored := results_stored r; documents_updated := documents_updated r;
     estimated_cost_usd := estimated_cost_usd r;
     engine_runtime_minutes := engine_runtime_minutes r;
     error_message := error_message r; retry_count := retry_count r |}.

Definition set_counts (v e : value) (r : AnalysisResult) : AnalysisResult :=
  {| config := config r; status := status r; start_time := start_time r; end_time := end_time r;
     duration_seconds := duration_seconds r; engine_id := engine_id r;
     engine_size := engine_size r; graph_id := graph_id r; vertex_count := v;
     edge_count := e; job_id := job_id r; algorithm := algorithm r;
     results_stored := results_stored r; documents_updated := documents_updated r;
     estimated_cost_usd := estimated_cost_usd r;
     engine_runtime_minutes := engine_runtime_minutes r;
     error_message := error_message r; retry_count := retry_count r |}.

Definition set_job_id (x : value) (r : AnalysisResult) : AnalysisResult :=
  {| config := config r; status := status r; start_time := start_time r; end_time := end_time r;
     duration_seconds := duration_seconds r; engine_id := engine_id r;
     engine_size := engine_size r; graph_id := graph_id r; vertex_count := vertex_count r;
     edge_count := edge_count r; job_id := x; algorithm := algorithm r;
     results_stored := results_stored r; documents_updated := documents_updated r;
     estimated_cost_usd := estimated_cost_usd r;
     engine_runtime_minutes := engine_runtime_minutes r;
     error_message := error_message r; retry_count := retry_count r |}.

Definition set_results_stored (x : bool) (r : AnalysisResult) : AnalysisResult :=
  {| config := config r; status := status r; start_time := start_time r; end_time := end_time r;
     duration_seconds := duration_seconds r; engine_id := engine_id r;
     engine_size := engine_size r; graph_id := graph_id r; vertex_count := vertex_count r;
     edge_count := edge_count r; job_id := job_id r; algorithm := algorithm r;
     results_stored := x; documents_updated := documents_updated r;
     estimated_cost_usd := estimated_cost_usd r;
     engine_runtime_minutes := engine_runtime_minutes r;
     error_message := error_message r; retry_count := retry_count r |}.

Definition set_documents_updated (x : value) (r : AnalysisResult) : AnalysisResult :=
  {| config := config r; status := status r; start_time := start_time r; end_time := end_time r;
     duration_seconds := duration_seconds r; engine_id := engine_id r;
     engine_size := engine_size r; graph_id := graph_id r; vertex_count := vertex_count r;
     edge_count := edge_count r; job_id := job_id r; algorithm := algorithm r;
     results_stored := results_stored r; documents_updated := x;
     estimated_cost_usd := estimated_cost_usd r;
     engine_runtime_minutes := engine_runtime_minutes r;
     error_message := error_message r; retry_count := retry_count r |}.

Definition set_estimated_cost_usd (x : float) (r : AnalysisResult) : AnalysisResult :=
  {| config := config r; status := status r; start_time := start_time r; end_time := end_time r;
     duration_seconds := duration_seconds r; engine_id := engine_id r;
     engine_size := engine_size r; graph_id := graph_id r; vertex_count := vertex_count r;
     edge_count := edge_count r; job_id := job_id r; algorithm := algorithm r;
     results_stored := results_stored r; documents_updated := documents_updated r;
     estimated_cost_usd := Some x;
     engine_runtime_minutes := engine_runtime_minutes r;
     error_message := error_message r; retry_count := retry_count r |}.

Definition set_engine_runtime_minutes (x : float) (r : AnalysisResult) : AnalysisResult :=
  {| config := config r; status := status r; start_time := start_time r; end_time := end_time r;
     duration_seconds := duration_seconds r; engine_id := engine_id r;
     engine_size := engine_size r; graph_id := graph_id r; vertex_count := vertex_count r;
     edge_count := edge_count r; job_id := job_id r; algorithm := algorithm r;
     results_stored := results_stored r; documents_updated := documents_updated r;
     estimated_cost_usd := estimated_cost_usd r;
     engine_runtime_minutes := Some x;
     error_message := error_message r; retry_count := retry_count r |}.

Definition set_error_message (x : string) (r : AnalysisResult) : AnalysisResult :=
  {| config := config r; status := status r; start_time := start_time r; end_time := end_time r;
     duration_seconds := duration_seconds r; engine_id := engine_id r;
     engine_size := engine_size r; graph_id := graph_id r; vertex_count := vertex_count r;
     edge_count := edge_count r; job_id := job_id r; algorithm := algorithm r;
     results_stored := results_stored r; documents_updated := documents_updated r;
     estimated_cost_usd := estimated_cost_usd r;
     engine_runtime_minutes := engine_runtime_minutes r;
     error_message := Some x; retry_count := retry_count r |}.

Definition set_retry_count (x : Z) (r : AnalysisResult) : AnalysisResult :=
  {| config := config r; status := status r; start_time := start_time r; end_time := end_time r;
     duration_seconds := duration_seconds r; engine_id := engine_id r;
     engine_size := engine_size r; graph_id := graph_id r; vertex_count := vertex_count r;
     edge_count := edge_count r; job_id := job_id r; algorithm := algorithm r;
     results_stored := results_stored r; documents_updated := documents_updated r;
     estimated_cost_usd := estimated_cost_usd r;
     engine_runtime_minutes := engine_runtime_minutes r;
     error_message := error_message r; retry_count := x |}.
End Result.
Abbreviation AnalysisResult := Result.AnalysisResult.

(** ** The trace *)

(** A call the orchestrator makes on its collaborators. *)
Inductive call : Type :=
  | CGetGaeConnection
  | CGetDbConnection
  | CListEngines
  | CDeployEngine (size_id type_id : string)
  | CDeleteEngine (engine_id : value)
  | CRequest (method endpoint : string) (payload : dict)
  | CRunAlgorithm (algorithm : string) (params : dict)
  | CGetJob (job_id : value)
  | CGetGraph (graph_id : value)
  | CCollectionCount (collection : string).

(** How the call came back. *)
Inductive ret : Type :=
  | Returned (v : value)
  | Raised (e : exn)
  | Hung.

(** The calls of [_log] that the properties below read (the progress lines
    of the poller and of the workflow steps are left out; they carry no
    state besides the poller's [last_status], which only the log reads). *)
Inductive log_line : Type :=
  | LogRetryAttempt (attempt max_retries : Z)
      (* "Retry attempt {attempt}/{config.max_retries}" *)
  | LogCompleted
      (* "OK: Analysis completed successfully!" *)
  | LogAnalysisFailed (msg : string)
      (* "ERROR: Analysis failed: {e}" *)
  | LogNotRetryable
      (* "Error is not retryable (configuration/setup issue)" *)
  | LogWillRetry
      (* "Error appears transient, will retry..." *)
  | LogCleanupBeforeRetryFailed (msg : string)
      (* "Cleanup before retry failed: {cleanup_err}" *)
  | LogLeftRunning (engine_id : value)
      (* "Engine {result.engine_id} left running (auto_cleanup=False)" *)
  | LogCleanupFailed (msg : string) (engine_id : value)
      (* "CRITICAL: Engine cleanup failed: {e}",
         "You MUST manually delete engine: {result.engine_id}" *)
  | LogCouldNotCheckEngines (msg : string)
      (* "Warning: Could not check for existing engines: {e}" *)
  | LogCouldNotCount (msg : string).
      (* "Warning: Could not count stored documents: {e}" *)

Inductive event : Type :=
  | EvCall (c : call) (r : ret)
  | EvStatus (st : AnalysisStatus)
  | EvLog (l : log_line).

(** ** The collaborators *)

(** The engine connection ([GAEConnectionBase] and what its two backends
    add), the database client and the clock, as operations on a world [W].
    [list_engines] and [current_engine_id] exist on one backend only:
    [None] is [hasattr(...) == False]. *)
Class GAEConnection (W : Type) : Type := {
  get_gae_connection : W -> outcome unit * W;
  get_db_connection : W -> outcome unit * W;
  list_engines : option (W -> outcome (list dict) * W);
  current_engine_id : option (W -> value);
  deploy_engine : string -> string -> W -> outcome dict * W;
  delete_engine : value -> W -> outcome dict * W;
  _request : string -> string -> dict -> W -> outcome dict * W;
  run_pagerank : dict -> W -> outcome dict * W;
  run_label_propagation : dict -> W -> outcome dict * W;
  run_scc : dict -> W -> outcome dict * W;
  run_wcc : dict -> W -> outcome dict * W;
  get_job : value -> W -> outcome dict * W;
  get_graph : value -> W -> outcome dict * W;
  collection_count : string -> W -> outcome value * W;
  (** [datetime.now()] and [time.time()], in microseconds *)
  now : W -> Z * W;
  (** [time.sleep(seconds)] *)
  sleep : Z -> W -> W
}.

(** ** The orchestrator's state and its monad *)

Module State.
(** The [GAEOrchestrator] object ([gae], [db], [current_analysis],
    [analysis_history]), the [AnalysisResult] object of the run in
    progress (one mutable object, which [current_analysis] aliases), the
    world and the trace. *)
Record state (W : Type) : Type := mk {
  world : W;
  gae : bool;
  db : bool;
  current_analysis : bool;
  analysis_history : list AnalysisResult;
  result : AnalysisResult;
  trace : list event
}.
Arguments mk {W}.
Arguments world {W}.
Arguments gae {W}.
Arguments db {W}.
Arguments current_analysis {W}.
Arguments analysis_history {W}.
Arguments result {W}.
Arguments trace {W}.

Definition set_world {W} (w : W) (s : state W) : state W :=
  mk w (gae s) (db s) (current_analysis s) (analysis_history s) (result s) (trace s).
Definition set_gae {W} (b : bool) (s : state W) : state W :=
  mk (world s) b (db s) (current_analysis s) (analysis_history s) (result s) (trace s).
Definition set_db {W} (b : bool) (s : state W) : state W :=
  mk (world s) (gae s) b (current_analysis s) (analysis_history s) (result s) (trace s).
Definition set_current_analysis {W} (b : bool) (s : state W) : state W :=
  mk (world s) (gae s) (db s) b (analysis_history s) (result s) (trace s).
Definition set_analysis_history {W} (h : list AnalysisResult) (s : state W) : state W :=
  mk (world s) (gae s) (db s) (current_analysis s) h (result s) (trace s).
Definition set_result {W} (r : AnalysisResult) (s : state W) : state W :=
  mk (world s) (gae s) (db s) (current_analysis s) (analysis_history s) r (trace s).
Definition emit {W} (e : event) (s : state W) : state W :=
  mk (world s) (gae s) (db s) (current_analysis s) (analysis_history s) (result s)
     (trace s ++ [e]).
End State.
Abbreviation state := State.state.

(** A computation: from a state to an outcome and the state it leaves.
    Assignments made before an exception stay made. *)
Definition M (W A : Type) : Type := state W -> outcome A * state W.

Definition ret_ {W A} (a : A) : M W A := fun s => (Ok a, s).

Definition bind {W A B} (m : M W A) (k : A -> M W B) : M W B :=
  fun s =>
    match m s with
    | (Ok a, s') => k a s'
    | (Raise e, s') => (Raise e, s')
    | (Diverge, s') => (Diverge, s')
    end.

Definition raise {W A} (e : exn) : M W A := fun s => (Raise e, s).

Definition diverge {W A} : M W A := fun s => (Diverge, s).

(** [try: m  except Exception as e: h e] *)
Definition try_except {W A} (m : M W A) (h : exn -> M W A) : M W A :=
  fun s =>
    match m s with
    | (Raise e, s') => h e s'
    | r => r
    end.

(** [try: m  finally: f], for a [finally] block that only assigns. *)
Definition try_finally {W A} (m : M W A) (f : state W -> state W) : M W A :=
  fun s =>
    match m s with
    | (Diverge, s') => (Diverge, s')
    | (o, s') => (o, f s')
    end.

Definition gets {W A} (f : state W -> A) : M W A := fun s => (Ok (f s), s).

Definition modify {W} (f : state W -> state W) : M W unit := fun s => (Ok tt, f s).

Declare Scope orch_scope.
Delimit Scope orch_scope with orch.
Notation "'let*' x ':=' m 'in' k" := (bind m (fun x => k))
  (at level 10, x name, m at level 100, k at level 200) : orch_scope.
#[local] Open Scope orch_scope.

Definition ret_of {A} (f : A -> value) (o : outcome A) : ret :=
  match o with
  | Ok a => Returned (f a)
  | Raise e => Raised e
  | Diverge => Hung
  end.

(** ** total_seconds, and the cost table *)

(** [timedelta.total_seconds()] of a difference of two clock readings
    (exact for every span below 2^53 microseconds). *)
Definition total_seconds (us : Z) : float :=
  if us <? 0
  then PrimFloat.opp (PrimFloat.div (PrimFloat.of_uint63 (Uint63.of_Z (- us))) 1000000%float)
  else PrimFloat.div (PrimFloat.of_uint63 (Uint63.of_Z us)) 1000000%float.

(** [GAEOrchestrator.ENGINE_COSTS] *)
Definition ENGINE_COSTS : gmap string float :=
  <["e4" := 0.20%float]> (<["e8" := 0.30%float]> (<["e16" := 0.40%float]>
  (<["e32" := 0.80%float]> (<["e64" := 1.60%float]> (<["e128" := 3.20%float]> ∅))))).

(** ** The retry classifier *)

(** [GAEOrchestrator.NON_RETRYABLE_ERRORS] *)
Definition NON_RETRYABLE_ERRORS : list string :=
  [ "ARANGO_GRAPH_TOKEN not set";
    "ARANGO_ENDPOINT not set";
    "ARANGO_DATABASE not set";
    "Missing required environment";
    "Configuration error";
    "Invalid configuration";
    "maximum recursion depth" ].

(** The [for pattern in ...] loop of [_is_retryable_error]. *)
Fixpoint retryable_against (patterns : list string) (error_lower : string) : bool :=
  match patterns with
  | [] => true
  | pattern :: rest =>
      if Py.contains (Py.lower pattern) error_lower then false
      else retryable_against rest error_lower
  end.

Definition _is_retryable_error (error_message : string) : bool :=
  let error_lower := Py.lower error_message in
  retryable_against NON_RETRYABLE_ERRORS error_lower.

(** ** One poll of _wait_for_job *)

Definition type_error (op : string) (a b : value) : exn :=
  mk_exn TypeError
    ("'" +:+ op +:+ "' not supported between instances of '" +:+ Py.type_name a
     +:+ "' and '" +:+ Py.type_name b +:+ "'").

(** The body of the [while True] loop of [GAEOrchestrator._wait_for_job],
    from the job record to the decision: [Ok true] is [return job],
    [Ok false] falls through to the timeout check and the sleep, [Raise]
    is the [raise RuntimeError(...)]. *)
Definition poll_decision (description : string) (job : dict) : outcome bool :=
  match job !! "progress", job !! "total" with
  | Some progress, Some total =>
      let has_error := Py.get_default job "error" (VBool false) in
      if Py.truthy has_error then
        let error_msg := Py.get_default job "error_message" (VStr "Unknown error") in
        Raise (mk_exn RuntimeError (description +:+ " failed: " +:+ Py.str error_msg))
      else
        match Py.ge progress total with
        | Py.Unordered x y => Raise (type_error ">=" x y)
        | Py.Ordered false => Ok false
        | Py.Ordered true =>
            match Py.gt total (VInt 0) with
            | Py.Unordered x y => Raise (type_error ">" x y)
            | Py.Ordered b => Ok b
            end
        end
  | _, _ =>
      match job !! "status" with
      | Some status =>
          if Py.eq_str status "succeeded" then Ok true
          else if Py.eq_str status "failed" then
            let error := Py.get_default job "error" (VStr "Unknown error") in
            Raise (mk_exn RuntimeError (description +:+ " failed: " +:+ Py.str error))
          else Ok false
      | None =>
          match job !! "state" with
          | Some state =>
              if Py.in_strs state ["done"; "finished"; "completed"] then Ok true
              else if Py.in_strs state ["failed"; "error"] then
                let error := Py.get_default job "error" (VStr "Unknown error") in
                Raise (mk_exn RuntimeError (description +:+ " failed: " +:+ Py.str error))
              else Ok false
          | None => Ok false
          end
      end
  end.

(** ** GenAIGAEConnection.wait_for_job *)

Module GenAI.
(** One poll of [GenAIGAEConnection.wait_for_job], after [get_job]:
    [status = job.get('status', {})],
    [state = status.get('state', job.get('state', 'unknown'))], the
    progress check, then the state check. *)
Definition poll_decision (job_id : string) (job : dict) : outcome bool :=
  let status := Py.get_default job "status" (VDict ∅) in
  match status with
  | VDict status_d =>
      let state := Py.get_default status_d "state" (Py.get_default job "state" (VStr "unknown")) in
      let after_progress : outcome bool :=
        match job !! "progress", job !! "total" with
        | Some progress, Some total =>
            if Py.truthy (Py.get_default job "error" (VBool false)) then
              let error_msg :=
                Py.get_default job "error_message"
                  (Py.get_default job "errorMessage" (VStr "Unknown error")) in
              Raise (mk_exn RuntimeError
                       ("Job " +:+ job_id +:+ " failed: " +:+ Py.str error_msg))
            else
              match Py.ge progress total with
              | Py.Unordered x y => Raise (type_error ">=" x y)
              | Py.Ordered false => Ok false
              | Py.Ordered true =>
                  match Py.gt total (VInt 0) with
                  | Py.Unordered x y => Raise (type_error ">" x y)
                  | Py.Ordered b => Ok b
                  end
              end
        | _, _ => Ok false
        end in
      match after_progress with
      | Ok false =>
          if Py.in_strs state Constants.COMPLETED_STATES then Ok true
          else if Py.in_strs state Constants.FAILED_STATES then
            let error_msg :=
              Py.get_default status_d "error"
                (Py.get_default job "error" (VStr "Unknown error")) in
            Raise (mk_exn RuntimeError
                     ("Job " +:+ job_id +:+ " failed: " +:+ Py.str error_msg))
          else Ok false
      | r => r
      end
  | _ =>
      Raise (mk_exn AttributeError
               ("'" +:+ Py.type_name status +:+ "' object has no attribute 'get'"))
  end.
End GenAI.

(** ** The orchestrator *)

Inductive control : Type :=
  | Break
  | Continue (attempt : Z).

Section Orchestrator.
Context {W : Type} `{GAE : GAEConnection W}.

Definition lift {A} (o : outcome A) : M W A := fun s => (o, s).

(** A call on a collaborator, recorded with how it came back. *)
Definition invoke {A} (c : call) (f : A -> value) (op : W -> outcome A * W) : M W A :=
  fun s =>
    let '(o, w) := op (State.world s) in
    (o, State.emit (EvCall c (ret_of f o)) (State.set_world w s)).

Definition clock : M W Z :=
  fun s => let '(t, w) := now (State.world s) in (Ok t, State.set_world w s).

Definition time_sleep (seconds : Z) : M W unit :=
  modify (fun s => State.set_world (sleep seconds (State.world s)) s).

Definition _log (l : log_line) : M W unit := modify (State.emit (EvLog l)).

(** [result.<field>] and [result.<field> = ...] *)
Definition read {A} (f : AnalysisResult -> A) : M W A :=
  gets (fun s => f (State.result s)).

Definition assign (f : AnalysisResult -> AnalysisResult) : M W unit :=
  modify (fun s => State.set_result (f (State.result s)) s).

Definition put_status (st : AnalysisStatus) (s : state W) : state W :=
  State.emit (EvStatus st) (State.set_result (Result.set_status st (State.result s)) s).

Definition set_status (st : AnalysisStatus) : M W unit := modify (put_status st).

(** *** _initialize_connections *)
Definition _initialize_connections : M W unit :=
  let* g := gets State.gae in
  let* _ := (if g then ret_ tt
             else let* _ := invoke CGetGaeConnection (fun _ => VNone) get_gae_connection in
                  modify (State.set_gae true)) in
  let* d := gets State.db in
  if d then ret_ tt
  else let* _ := invoke CGetDbConnection (fun _ => VNone) get_db_connection in
       modify (State.set_db true).

(** *** _check_existing_engines *)

(** The list comprehension
    [f"{e['id']} ({e.get('size_id', 'unknown')})" for e in existing]. *)
Fixpoint engine_info_of (existing : list dict) : outcome (list string) :=
  match existing with
  | [] => Ok []
  | e :: rest =>
      match e !! "id" with
      | None => Raise (mk_exn KeyError "'id'")
      | Some id =>
          match engine_info_of rest with
          | Ok l =>
              Ok ((Py.str id +:+ " (" +:+
                   Py.str (Py.get_default e "size_id" (VStr "unknown")) +:+ ")") :: l)
          | r => r
          end
      end
  end.

Definition _check_existing_engines : M W unit :=
  try_except
    (match list_engines with
     | Some op =>
         let* existing := invoke CListEngines (fun l => VList (map VDict l)) op in
         match existing with
         | [] => ret_ tt
         | _ =>
             let* engine_info := lift (engine_info_of existing) in
             raise (mk_exn RuntimeError
                      ("Engines already running: " +:+ String.concat ", " engine_info +:+
                       ". Delete them first or risk multiple billing charges."))
         end
     | None => ret_ tt
     end)
    (fun e =>
       match exn_cls e with
       | AttributeError => ret_ tt
       | _ =>
           if Py.contains "already running" (exn_str e) then raise e
           else _log (LogCouldNotCheckEngines (exn_str e))
       end).

(** *** _wait_for_job *)

(** [f"{elapsed:.0f}"] for an elapsed time of [us] microseconds: the
    nearest whole number of seconds, the even one of the two at a half,
    and [-0] for what rounds to zero from below. *)
Definition seconds_text (us : Z) : string :=
  let q := us / 1000000 in
  let r := us mod 1000000 in
  let n := if r <? 500000 then q
           else if 500000 <? r then q + 1
           else if Z.even q then q else q + 1 in
  if (n =? 0) && (us <? 0) then "-0" else pretty n.

(** The [while True] loop; [fuel] bounds the number of polls.  Each of
    the three [return job] is preceded by a reading of the clock, for
    the elapsed time of the log line. *)
Fixpoint poll_loop (fuel : nat) (job_id : value) (description : string)
    (poll_interval start_time : Z) : M W dict :=
  match fuel with
  | O => diverge
  | S fuel' =>
      let* job := invoke (CGetJob job_id) VDict (get_job job_id) in
      let* done := lift (poll_decision description job) in
      if done then
        let* _ := clock in
        ret_ job
      else
        let* cur := gets State.current_analysis in
        let* _ :=
          (if cur then
             let* t := clock in
             let elapsed := t - start_time in
             let* cfg := read Result.config in
             if Config.timeout_seconds cfg * 1000000 <? elapsed
             then raise (mk_exn TimeoutError
                           (description +:+ " timed out after " +:+
                            seconds_text elapsed +:+ "s"))
             else ret_ tt
           else ret_ tt) in
        let* _ := time_sleep poll_interval in
        poll_loop fuel' job_id description poll_interval start_time
  end.

Definition _wait_for_job (fuel : nat) (job_id : value) (description : string) : M W dict :=
  let* start_time := clock in
  poll_loop fuel job_id description Constants.DEFAULT_POLL_INTERVAL start_time.



(** *** _deploy_engine *)
Definition _deploy_engine : M W unit :=
  let* _ := set_status ENGINE_DEPLOYING in
  let* cfg := read Result.config in
  try_except
    (let* engine_info :=
       invoke (CDeployEngine (Config.engine_size cfg) (Config.engine_type cfg)) VDict
         (deploy_engine (Config.engine_size cfg) (Config.engine_type cfg)) in
     match engine_info !! "id" with
     | Some id => assign (Result.set_engine_id id)
     | None => raise (mk_exn KeyError "'id'")
     end)
    (fun e =>
       let* eid := read Result.engine_id in
       let* _ :=
         (match current_engine_id with
          | Some cur =>
              let* c := gets (fun s => cur (State.world s)) in
              if Py.truthy c && negb (Py.truthy eid)
              then assign (Result.set_engine_id c)
              else ret_ tt
          | None => ret_ tt
          end) in
       raise e).

(** *** GAEConnectionBase.load_graph and store_results *)

Definition _normalize_job_response (job : dict) : dict :=
  match job !! "job_id", job !! "id" with
  | Some j, None => <["id" := j]> job
  | _, _ => job
  end.

Definition strs (l : list string) : value := VList (map VStr l).

Definition opt_strs (l : option (list string)) : value :=
  match l with
  | Some l => strs l
  | None => VNone
  end.

Definition opt_str (s : option string) : value :=
  match s with
  | Some s => VStr s
  | None => VNone
  end.

Definition load_graph (database : string)
    (vertex_collections edge_collections : option (list string))
    (graph_name : option string) (vertex_attributes : option (list string)) : M W dict :=
  if negb (Py.truthy (opt_str graph_name)) &&
     negb (Py.truthy (opt_strs vertex_collections) && Py.truthy (opt_strs edge_collections))
  then raise (mk_exn ValueError
                "Must specify either graph_name or both vertex_collections and edge_collections")
  else
    let payload : dict := {[ "database" := VStr database ]} in
    let payload : dict :=
      if Py.truthy (opt_str graph_name)
      then <["graph_name" := opt_str graph_name]> payload
      else <["edge_collections" := opt_strs edge_collections]>
             (<["vertex_collections" := opt_strs vertex_collections]> payload) in
    let payload : dict :=
      if Py.truthy (opt_strs vertex_attributes)
      then <["vertex_attributes" := opt_strs vertex_attributes]> payload
      else payload in
    let endpoint := Constants.API_VERSION_PREFIX +:+ "loaddata" in
    let* result := invoke (CRequest "POST" endpoint payload) VDict
                     (_request "POST" endpoint payload) in
    ret_ (_normalize_job_response result).

Definition store_results (target_collection : string) (job_ids : list value)
    (attribute_names : list string) (database : string) : M W dict :=
  if negb (Py.truthy (VStr database))
  then raise (mk_exn ValueError "database parameter is required")
  else
    let payload : dict :=
      <["database" := VStr database]> (<["target_collection" := VStr target_collection]>
      (<["job_ids" := VList job_ids]> (<["attribute_names" := strs attribute_names]>
      (<["parallelism" := VInt 8]> (<["batch_size" := VInt 10000]> ∅))))) in
    let endpoint := Constants.API_VERSION_PREFIX +:+ "storeresults" in
    let* result := invoke (CRequest "POST" endpoint payload) VDict
                     (_request "POST" endpoint payload) in
    ret_ (_normalize_job_response result).

(** The format spec [{v:,}] of the "Vertices:", "Edges:" and "Results
    stored:" log lines: it renders integers and raises on anything else. *)
Definition format_thousands (v : value) : M W unit :=
  match v with
  | VInt _ | VBool _ => ret_ tt
  | VStr _ => raise (mk_exn ValueError "Cannot specify ',' with 's'.")
  | _ => raise (mk_exn TypeError
                  ("unsupported format string passed to " +:+ Py.type_name v +:+ ".__format__"))
  end.

(** *** _load_graph *)
Definition _load_graph (fuel : nat) : M W unit :=
  let* _ := set_status GRAPH_LOADING in
  let* cfg := read Result.config in
  let* graph_info :=
    load_graph (Config.database cfg) (Some (Config.vertex_collections cfg))
      (Some (Config.edge_collections cfg)) None (Config.vertex_attributes cfg) in
  let* _ := assign (Result.set_graph_id
                      (Py.or (Py.get graph_info "graph_id") (Py.get graph_info "id"))) in
  let job_id := Py.or (Py.get graph_info "job_id") (Py.get graph_info "id") in
  let* _ := (if Py.truthy job_id
             then let* _ := _wait_for_job fuel job_id "Graph loading" in ret_ tt
             else ret_ tt) in
  let* _ :=
    try_except
      (let* gid := read Result.graph_id in
       let* graph_details := invoke (CGetGraph gid) VDict (get_graph gid) in
       assign (Result.set_counts
                 (Py.get_default graph_details "vertex_count" (VInt 0))
                 (Py.get_default graph_details "edge_count" (VInt 0))))
      (fun _ => ret_ tt) in
  let* vc := read Result.vertex_count in
  let* _ := (if Py.truthy vc then format_thousands vc else ret_ tt) in
  let* ec := read Result.edge_count in
  if Py.truthy ec then format_thousands ec else ret_ tt.

(** *** _run_algorithm *)

(** [job_result.get('statistics', {}).get('execution_time_ms', 0) / 1000]:
    the quotient is a float, and an integer too large for one raises
    [OverflowError] (held as [OtherException]: no handler of the
    orchestrator names it). *)
Definition execution_time_check (job_result : dict) : M W unit :=
  match Py.get_default job_result "statistics" (VDict ∅) with
  | VDict statistics =>
      let ms := Py.get_default statistics "execution_time_ms" (VInt 0) in
      match Py.as_int ms with
      | Some n =>
          if 1000 * (2 ^ 1024 - 2 ^ 970) <=? Z.abs n
          then raise (mk_exn OtherException "integer division result too large for a float")
          else ret_ tt
      | None => raise (mk_exn TypeError
                         ("unsupported operand type(s) for /: '" +:+ Py.type_name ms
                          +:+ "' and 'int'"))
      end
  | v => raise (mk_exn AttributeError
                  ("'" +:+ Py.type_name v +:+ "' object has no attribute 'get'"))
  end.

Definition _run_algorithm (fuel : nat) : M W unit :=
  let* _ := set_status ALGORITHM_RUNNING in
  let* cfg := read Result.config in
  let* gid := read Result.graph_id in
  (* {'graph_id': result.graph_id, **result.config.algorithm_params} *)
  let params : dict := Config.algorithm_params cfg ∪ {[ "graph_id" := gid ]} in
  let alg := Config.algorithm cfg in
  let* job_info :=
    (if String.eqb alg "pagerank" then
       invoke (CRunAlgorithm alg params) VDict (run_pagerank params)
     else if String.eqb alg "label_propagation" then
       invoke (CRunAlgorithm alg params) VDict (run_label_propagation params)
     else if String.eqb alg "scc" then
       invoke (CRunAlgorithm alg params) VDict (run_scc params)
     else if String.eqb alg "wcc" then
       invoke (CRunAlgorithm alg params) VDict (run_wcc params)
     else if String.eqb alg "betweenness" then
       raise (mk_exn ValueError "Betweenness centrality not yet supported")
     else
       raise (mk_exn ValueError ("Unsupported algorithm: " +:+ alg))) in
  let* _ := assign (Result.set_job_id
                      (Py.or (Py.get job_info "job_id") (Py.get job_info "id"))) in
  let* jid := read Result.job_id in
  let* job_result := _wait_for_job fuel jid (alg +:+ " computation") in
  execution_time_check job_result.

(** *** _store_results *)
Definition _store_results (fuel : nat) : M W unit :=
  let* _ := set_status STORING_RESULTS in
  let* cfg := read Result.config in
  let* jid := read Result.job_id in
  let* store_info :=
    store_results (Config.target_collection cfg) [jid] [Config.result_field cfg]
      (Config.database cfg) in
  let store_job_id := Py.or (Py.get store_info "job_id") (Py.get store_info "id") in
  let* _ := (if Py.truthy store_job_id
             then let* _ := _wait_for_job fuel store_job_id "Results storage" in ret_ tt
             else ret_ tt) in
  let* _ := assign (Result.set_results_stored true) in
  try_except
    (let* n := invoke (CCollectionCount (Config.target_collection cfg)) (fun v => v)
                 (collection_count (Config.target_collection cfg)) in
     let* _ := assign (Result.set_documents_updated n) in
     format_thousands n)
    (fun e => _log (LogCouldNotCount (exn_str e))).

(** *** _cleanup_engine *)
Definition _cleanup_engine : M W unit :=
  let* original_status := read Result.status in
  let* _ := set_status CLEANING_UP in
  try_finally
    (let* eid := read Result.engine_id in
     let* _ := invoke (CDeleteEngine eid) VDict (delete_engine eid) in
     ret_ tt)
    (fun s => if is_terminal original_status then put_status original_status s else s).

(** *** run_analysis *)

(** The four workflow steps of the [try] block. *)
Definition workflow (fuel : nat) : M W unit :=
  let* _ := _deploy_engine in
  let* _ := _load_graph fuel in
  let* _ := _run_algorithm fuel in
  _store_results fuel.

(** The rest of the [try] block: mark as completed, compute the cost,
    [break]. *)
Definition mark_completed (config : AnalysisConfig) : M W control :=
  let* _ := set_status COMPLETED in
  let* t := clock in
  let* start := read Result.start_time in
  let duration_seconds := total_seconds (t - start) in
  let* _ := assign (Result.set_end t duration_seconds) in
  let engine_runtime_minutes := PrimFloat.div duration_seconds 60%float in
  let* _ := assign (Result.set_engine_runtime_minutes engine_runtime_minutes) in
  let hourly_cost := default 0%float (ENGINE_COSTS !! Config.engine_size config) in
  let* _ := (if PrimFloat.ltb 0%float hourly_cost
             then assign (Result.set_estimated_cost_usd
                            (PrimFloat.mul (PrimFloat.div engine_runtime_minutes 60%float)
                               hourly_cost))
             else ret_ tt) in
  let* _ := _log LogCompleted in
  ret_ Break.

(** The [except Exception as e] block. *)
Definition handle_failure (config : AnalysisConfig) (attempt : Z) (e : exn) : M W control :=
  let* _ := set_status FAILED in
  let* _ := assign (Result.set_error_message (exn_str e)) in
  let* t := clock in
  let* start := read Result.start_time in
  let* _ := assign (Result.set_end t (total_seconds (t - start))) in
  let* _ := _log (LogAnalysisFailed (exn_str e)) in
  let is_retryable := _is_retryable_error (exn_str e) in
  if negb is_retryable then
    let* _ := _log LogNotRetryable in
    ret_ Break
  else if Config.retry_on_failure config && (attempt <? Config.max_retries config) then
    let attempt := attempt + 1 in
    let* _ := _log LogWillRetry in
    let* eid := read Result.engine_id in
    let* _ :=
      (if Py.truthy eid then
         try_except
           (let* _ := _cleanup_engine in
            assign (Result.set_engine_id VNone))
           (fun cleanup_err => _log (LogCleanupBeforeRetryFailed (exn_str cleanup_err)))
       else ret_ tt) in
    ret_ (Continue attempt)
  else ret_ Break.

(** One pass through the body of [while attempt < max_attempts]. *)
Definition iteration (fuel : nat) (config : AnalysisConfig) (attempt : Z) : M W control :=
  let* _ := (if 0 <? attempt
             then let* _ := assign (Result.set_retry_count attempt) in
                  _log (LogRetryAttempt attempt (Config.max_retries config))
             else ret_ tt) in
  try_except
    (let* _ := workflow fuel in
     mark_completed config)
    (handle_failure config attempt).

(** The retry loop.  [budget] is a termination measure only: the loop
    condition is the one of the source, and started with
    [Z.to_nat max_attempts] the budget never runs out before it. *)
Fixpoint retry_loop (budget fuel : nat) (config : AnalysisConfig)
    (max_attempts attempt : Z) : M W unit :=
  if attempt <? max_attempts then
    match budget with
    | O => diverge
    | S budget' =>
        let* c := iteration fuel config attempt in
        match c with
        | Break => ret_ tt
        | Continue attempt' => retry_loop budget' fuel config max_attempts attempt'
        end
    end
  else ret_ tt.

Definition max_attempts_of (config : AnalysisConfig) : Z :=
  if Config.retry_on_failure config then Config.max_retries config + 1 else 1.

(** The "ALWAYS cleanup engine" block after the loop. *)
Definition final_cleanup (config : AnalysisConfig) : M W unit :=
  let* eid := read Result.engine_id in
  if Py.truthy eid then
    try_except
      (if Config.auto_cleanup config then _cleanup_engine
       else _log (LogLeftRunning eid))
      (fun e =>
         let* eid := read Result.engine_id in
         _log (LogCleanupFailed (exn_str e) eid))
  else ret_ tt.

(** What [run_analysis] does before the retry loop. *)
Definition preflight (config : AnalysisConfig) : M W unit :=
  let* start := clock in
  let* _ := modify (State.set_result (Result.new config start)) in
  let* _ := modify (State.set_current_analysis true) in
  let* _ := _initialize_connections in
  _check_existing_engines.

(** What it does from the retry loop on. *)
Definition run_attempts (fuel : nat) (config : AnalysisConfig) : M W AnalysisResult :=
  let max_attempts := max_attempts_of config in
  let* _ := retry_loop (Z.to_nat max_attempts) fuel config max_attempts 0 in
  let* _ := final_cleanup config in
  let* result := gets State.result in
  let* _ := modify (fun s => State.set_analysis_history (State.analysis_history s ++ [result]) s) in
  let* _ := modify (State.set_current_analysis false) in
  ret_ result.

Definition run_analysis (fuel : nat) (config : AnalysisConfig) : M W AnalysisResult :=
  let* _ := preflight config in
  run_attempts fuel config.

End Orchestrator.

(** ** Reading the trace *)

Definition is_deploy (e : event) : bool :=
  match e with
  | EvCall (CDeployEngine _ _) _ => true
  | _ => false
  end.

(** The number of calls of [gae.deploy_engine]. *)
Definition deploy_attempts (t : list event) : nat := length (filter is_deploy t).

Definition failure_of (e : event) : option string :=
  match e with
  | EvLog (LogAnalysisFailed msg) => Some msg
  | _ => None
  end.

(** The messages of the failed iterations, oldest first. *)
Definition failures (t : list event) : list string := omap failure_of t.

Definition is_request (e : event) : bool :=
  match e with
  | EvCall (CRequest _ _ _) _ => true
  | _ => false
  end.

Definition is_call (e : event) : bool :=
  match e with
  | EvCall _ _ => true
  | _ => false
  end.

Definition deletion_of (e : event) : option (value * ret) :=
  match e with
  | EvCall (CDeleteEngine id) r => Some (id, r)
  | _ => None
  end.

(** The calls of [gae.delete_engine]: the identifier passed and how the
    call came back, oldest first. *)
Definition deletions (t : list event) : list (value * ret) := omap deletion_of t.

(** The job records the poller fetched, oldest first. *)
Definition polled_of (e : event) : option dict :=
  match e with
  | EvCall (CGetJob _) (Returned (VDict job)) => Some job
  | _ => None
  end.

Definition polled (t : list event) : list dict := omap polled_of t.

(** ** A scripted backend *)

Module Mock.
(** What a scripted call does: it returns a value or it raises. *)
Inductive answer : Type :=
  | Answer (d : dict)
  | Failure (msg : string).

Definition play (a : answer) : outcome dict :=
  match a with
  | Answer d => Ok d
  | Failure msg => Raise (mk_exn OtherException msg)
  end.

(** A backend in the manner of the test suite's mocks: [deploy_engine],
    [delete_engine] and [get_job] answer from a script, then with a fixed
    value; the other operations always answer with a fixed value.  Every
    reading of the clock advances it by [tick] microseconds. *)
Record world : Type := mk {
  deploy_script : list answer;
  delete_script : list answer;
  job_script : list answer;
  engine_attr : option value;
  time : Z;
  tick : Z
}.

Definition engine123 : dict := {[ "id" := VStr "engine123" ]}.
Definition succeeded : dict := {[ "status" := VStr "succeeded" ]}.

Definition deploy (w : world) : outcome dict * world :=
  match deploy_script w with
  | a :: rest =>
      (play a, mk rest (delete_script w) (job_script w) (engine_attr w) (time w) (tick w))
  | [] => (Ok engine123, w)
  end.

Definition delete (w : world) : outcome dict * world :=
  match delete_script w with
  | a :: rest =>
      (play a, mk (deploy_script w) rest (job_script w) (engine_attr w) (time w) (tick w))
  | [] => (Ok ∅, w)
  end.

Definition job (w : world) : outcome dict * world :=
  match job_script w with
  | a :: rest =>
      (play a, mk (deploy_script w) (delete_script w) rest (engine_attr w) (time w) (tick w))
  | [] => (Ok succeeded, w)
  end.

Definition request (endpoint : string) (w : world) : outcome dict * world :=
  if String.eqb endpoint "v1/loaddata"
  then (Ok (<["job_id" := VStr "load123"]> {[ "graph_id" := VStr "graph123" ]}), w)
  else (Ok {[ "job_id" := VStr "store123" ]}, w).

Definition algo (w : world) : outcome dict * world :=
  (Ok {[ "job_id" := VStr "algo123" ]}, w).

Definition graph (w : world) : outcome dict * world :=
  (Ok (<["vertex_count" := VInt 100]> {[ "edge_count" := VInt 200 ]}), w).

Definition read_clock (w : world) : Z * world :=
  (time w, mk (deploy_script w) (delete_script w) (job_script w) (engine_attr w)
             (time w + tick w) (tick w)).

Definition pass (seconds : Z) (w : world) : world :=
  mk (deploy_script w) (delete_script w) (job_script w) (engine_attr w)
     (time w + seconds * 1000000) (tick w).

#[global] Instance connection : GAEConnection world := {|
  get_gae_connection := fun w => (Ok tt, w);
  get_db_connection := fun w => (Ok tt, w);
  list_engines := Some (fun w => (Ok [], w));
  current_engine_id :=
    Some (fun w => match engine_attr w with Some v => v | None => VNone end);
  deploy_engine := fun _ _ => deploy;
  delete_engine := fun _ => delete;
  _request := fun _ endpoint _ => request endpoint;
  run_pagerank := fun _ => algo;
  run_label_propagation := fun _ => algo;
  run_scc := fun _ => algo;
  run_wcc := fun _ => algo;
  get_job := fun _ => job;
  get_graph := fun _ => graph;
  collection_count := fun _ w => (Ok (VInt 100), w);
  now := read_clock;
  sleep := pass
|}.

(** [AnalysisConfig(name=..., vertex_collections=["v1"],
    edge_collections=["e1"])] with the defaults of the dataclass and of
    [__post_init__]. *)
Definition config (vs es : list string) (size : string) (cleanup retry : bool)
    (retries : Z) : AnalysisConfig :=
  {| Config.name := "test_run";
     Config.description := "";
     Config.vertex_collections := vs;
     Config.edge_collections := es;
     Config.vertex_attributes := None;
     Config.database := "test_db";
     Config.algorithm := "pagerank";
     Config.algorithm_params := ∅;
     Config.result_field := "pagerank_test_run";
     Config.engine_size := size;
     Config.engine_type := "gral";
     Config.target_collection := "graph_analysis_results";
     Config.auto_cleanup := cleanup;
     Config.retry_on_failure := retry;
     Config.max_retries := retries;
     Config.timeout_seconds := Constants.DEFAULT_JOB_TIMEOUT;
     Config.estimated_cost_usd := None |}.

(** A freshly constructed orchestrator over the world [w]. *)
Definition orchestrator (w : world) : state world :=
  State.mk w false false false [] (Result.new (config [] [] "" true true 0) 0) [].

Definition failing (msg : string) : answer := Failure msg.

Definition in_state (st : string) : dict := {[ "state" := VStr st ]}.

(** The worlds of the scenarios below.  The clock starts at one second
    and, but for the last world, moves by one second at every reading. *)
Definition world_ok : world := mk [] [] [] None 1000000 1000000.

Definition world_cleanup_fails : world :=
  mk [] [failing "engine not found"] [] None 1000000 1000000.

Definition world_transient_then_ok : world :=
  mk [failing "Transient connection error"] [] [] (Some (VStr "old-engine")) 1000000 1000000.

Definition world_transient_then_invalid : world :=
  mk [failing "Transient connection error"; failing "Invalid configuration: missing API key"]
     [] [] (Some (VStr "failed-engine")) 1000000 1000000.

Definition world_teardown_fails : world :=
  mk [failing "Transient connection error"] [failing "teardown refused"] []
     (Some (VStr "old-engine")) 1000000 1000000.


Definition world_state_succeeded : world :=
  mk [] [] [Answer (in_state "succeeded"); Answer (in_state "succeeded")]
     None 1000000 2000000000.

(** A run that has failed with the engine "engine123" deployed, in a
    world whose next [delete_engine] raises. *)
Definition failed_with_engine : state world :=
  State.set_result
    (Result.set_engine_id (VStr "engine123")
       (Result.set_status FAILED (Result.new (config ["v1"] ["e1"] "e16" true true 3) 0)))
    (orchestrator world_cleanup_fails).

(** [AnalysisConfig(name="test_run", vertex_collections=["v1"],
    edge_collections=["e1"], max_retries=n)] *)
Definition config_of (max_retries : Z) : AnalysisConfig :=
  config ["v1"] ["e1"] "e16" true true max_retries.

(** The same on an engine size the cost table does not list. *)
Definition config_unlisted_size : AnalysisConfig :=
  config ["v1"] ["e1"] "custom" true true 3.

(** [AnalysisConfig(name="test_run")]: no collections. *)
Definition config_without_source : AnalysisConfig :=
  config [] [] "e16" true true 3.

(** The state in which [run_analysis (config_of 1)] enters its retry
    loop over the world [w], and the state in which it then enters the
    [except] block when the first deploy raises. *)
Definition entering_loop (w : world) : state world :=
  snd (preflight (config_of 1) (orchestrator w)).

Definition after_failed_deploy (w : world) : state world :=
  snd (workflow 5 (entering_loop w)).

Definition transient : exn := mk_exn OtherException "Transient connection error".
End Mock.

(** The scripted backend with a [delete_engine] that does not come back. *)
Module Hanging.
Definition connection : GAEConnection Mock.world := {|
  get_gae_connection := fun w => (Ok tt, w);
  get_db_connection := fun w => (Ok tt, w);
  list_engines := Some (fun w => (Ok [], w));
  current_engine_id :=
    Some (fun w => match Mock.engine_attr w with Some v => v | None => VNone end);
  deploy_engine := fun _ _ => Mock.deploy;
  delete_engine := fun _ w => (Diverge, w);
  _request := fun _ endpoint _ => Mock.request endpoint;
  run_pagerank := fun _ => Mock.algo;
  run_label_propagation := fun _ => Mock.algo;
  run_scc := fun _ => Mock.algo;
  run_wcc := fun _ => Mock.algo;
  get_job := fun _ => Mock.job;
  get_graph := fun _ => Mock.graph;
  collection_count := fun _ w => (Ok (VInt 100), w);
  now := Mock.read_clock;
  sleep := Mock.pass
|}.
End Hanging.

(** ** The vocabulary of the statements *)



(** Two characters that are the same, or the same letter of ASCII in its
    two cases. *)
Definition same_letter (c d : ascii) : Prop :=
  c = d
  ∨ ∃ n, (65 ≤ n ≤ 90)%N
         ∧ (c = ascii_of_N n ∧ d = ascii_of_N (n + 32)
            ∨ c = ascii_of_N (n + 32) ∧ d = ascii_of_N n).

(** [text] is [pattern] up to case, character by character: a character
    of the text is the character of the pattern or the same letter in the
    other case, and a Kelvin sign in the text stands for the letter k. *)
Inductive same_ignoring_case : string -> string -> Prop :=
  | same_empty : same_ignoring_case "" ""
  | same_character (c d : ascii) (text pattern : string) :
      same_letter c d →
      same_ignoring_case text pattern →
      same_ignoring_case (String c text) (String d pattern)
  | same_kelvin (d : ascii) (text pattern : string) :
      same_letter d "k" →
      same_ignoring_case text pattern →
      same_ignoring_case (Py.kelvin_sign +:+ text) (String d pattern).

(** What the specification calls a case-insensitive substring match:
    some contiguous piece of the message is the pattern up to case. *)
Definition occurs_ignoring_case (pattern msg : string) : Prop :=
  ∃ pre mid post, msg = pre +:+ mid +:+ post ∧ same_ignoring_case mid pattern.

(** A text of ASCII characters. *)
Definition is_ascii (c : ascii) : bool := (N_of_ascii c <? 128)%N.

Fixpoint ascii_text (p : string) : bool :=
  match p with
  | EmptyString => true
  | String c p' => is_ascii c && ascii_text p'
  end.

(** The last character of a text is not the letter i. *)
Fixpoint not_ending_in_i (p : string) : bool :=
  match p with
  | EmptyString => true
  | String c EmptyString => negb (Ascii.eqb (Py.lower_ascii c) "i")
  | String _ p' => not_ending_in_i p'
  end.

(** The graph-source invariant of the specification, on a config that has
    no named-graph field: both collection lists are non-empty. *)
Definition has_graph_source (config : AnalysisConfig) : bool :=
  match Config.vertex_collections config, Config.edge_collections config with
  | _ :: _, _ :: _ => true
  | _, _ => false
  end.

(** [m] relates every state it starts from to the state it leaves. *)
Definition frame {W A} (R : relation (state W)) (m : M W A) : Prop :=
  ∀ s o s', m s = (o, s') → R s s'.

(** The trace grew by events that all satisfy [P]. *)
Definition grows {W} (P : event → bool) (s s' : state W) : Prop :=
  ∃ evs, State.trace s' = State.trace s ++ evs ∧ forallb P evs = true.

(** The events of the three steps after the deploy. *)
Definition quiet (e : event) : bool :=
  match e with
  | EvCall (CRequest _ _ _ | CRunAlgorithm _ _ | CGetJob _ | CGetGraph _
           | CCollectionCount _) _ => true
  | EvStatus (GRAPH_LOADING | ALGORITHM_RUNNING | STORING_RESULTS) => true
  | EvLog (LogCouldNotCount _) => true
  | _ => false
  end.

(** What the steps after the deploy leave alone. *)
Record untouched {W} (s s' : state W) : Prop := {
  same_config : Result.config (State.result s') = Result.config (State.result s);
  same_start_time : Result.start_time (State.result s') = Result.start_time (State.result s);
  same_engine_id : Result.engine_id (State.result s') = Result.engine_id (State.result s);
  same_error_message :
    Result.error_message (State.result s') = Result.error_message (State.result s);
  same_retry_count : Result.retry_count (State.result s') = Result.retry_count (State.result s);
  same_estimated_cost_usd :
    Result.estimated_cost_usd (State.result s') = Result.estimated_cost_usd (State.result s);
  same_history : State.analysis_history s' = State.analysis_history s;
  same_current : State.current_analysis s' = State.current_analysis s
}.

Definition quiet_step {W} (s s' : state W) : Prop := untouched s s' ∧ grows quiet s s'.

(** The results agree on every field but [status]. *)
Definition same_but_status (r r' : AnalysisResult) : Prop :=
  Result.set_status PENDING r' = Result.set_status PENDING r.

(** The ways out of the [except] block of the retry loop, for a failure
    with message [m] at attempt number [attempt], the engine identifier
    [eid] being recorded when the block is entered: the outcome, the calls
    of [delete_engine] made, and the engine identifier and status left. *)
Inductive failure_exit (config : AnalysisConfig) (attempt : Z) (m : string) (eid : value) :
    outcome control → list (value * ret) → value → AnalysisStatus → Prop :=
  | exit_not_retryable :
      _is_retryable_error m = false →
      failure_exit config attempt m eid (Ok Break) [] eid FAILED
  | exit_no_attempt_left :
      _is_retryable_error m = true →
      Config.retry_on_failure config && (attempt <? Config.max_retries config) = false →
      failure_exit config attempt m eid (Ok Break) [] eid FAILED
  | exit_retry_without_engine :
      _is_retryable_error m = true →
      Config.retry_on_failure config && (attempt <? Config.max_retries config) = true →
      Py.truthy eid = false →
      failure_exit config attempt m eid (Ok (Continue (attempt + 1))) [] eid FAILED
  | exit_retry_engine_deleted v :
      _is_retryable_error m = true →
      Config.retry_on_failure config && (attempt <? Config.max_retries config) = true →
      Py.truthy eid = true →
      failure_exit config attempt m eid (Ok (Continue (attempt + 1)))
        [(eid, Returned v)] VNone FAILED
  | exit_retry_delete_raised e :
      _is_retryable_error m = true →
      Config.retry_on_failure config && (attempt <? Config.max_retries config) = true →
      Py.truthy eid = true →
      failure_exit config attempt m eid (Ok (Continue (attempt + 1)))
        [(eid, Raised e)] eid FAILED
  | exit_retry_delete_hung :
      _is_retryable_error m = true →
      Config.retry_on_failure config && (attempt <? Config.max_retries config) = true →
      Py.truthy eid = true →
      failure_exit config attempt m eid Diverge [(eid, Hung)] eid CLEANING_UP.

(** What every pass through the body of the retry loop does, from the
    state [s] at attempt number [attempt] to the state [s'], [evs] being
    what it adds to the trace. *)
Record pass_post {W} (config : AnalysisConfig) (attempt : Z) (s s' : state W)
    (evs : list event) : Prop := {
  pass_trace : State.trace s' = State.trace s ++ evs;
  pass_deploys : deploy_attempts evs = 1%nat;
  pass_config : Result.config (State.result s') = Result.config (State.result s);
  pass_start_time : Result.start_time (State.result s') = Result.start_time (State.result s);
  pass_history : State.analysis_history s' = State.analysis_history s;
  pass_current : State.current_analysis s' = State.current_analysis s;
  pass_retry_count :
    Result.retry_count (State.result s') =
    if 0 <? attempt then attempt else Result.retry_count (State.result s);
  pass_no_source :
    has_graph_source (Result.config (State.result s)) = false →
    List.filter is_request evs = []
}.

(** How a pass ends. *)
Inductive pass_exit {W} (config : AnalysisConfig) (attempt : Z) (s s' : state W)
    (evs : list event) : outcome control → Prop :=
  | pass_completed d :
      Result.status (State.result s') = COMPLETED →
      failures evs = [] →
      Result.error_message (State.result s') = Result.error_message (State.result s) →
      Result.duration_seconds (State.result s') = Some d →
      Result.estimated_cost_usd (State.result s') =
        match ENGINE_COSTS !! Config.engine_size config with
        | Some rate =>
            Some (PrimFloat.mul (PrimFloat.div (PrimFloat.div d 60%float) 60%float) rate)
        | None => Result.estimated_cost_usd (State.result s)
        end →
      has_graph_source (Result.config (State.result s)) = true →
      pass_exit config attempt s s' evs (Ok Break)
  | pass_failed_for_good m :
      Result.status (State.result s') = FAILED →
      failures evs = [m] →
      Result.error_message (State.result s') = Some m →
      Result.estimated_cost_usd (State.result s') = Result.estimated_cost_usd (State.result s) →
      _is_retryable_error m = false ∨
      Config.retry_on_failure config && (attempt <? Config.max_retries config) = false →
      pass_exit config attempt s s' evs (Ok Break)
  | pass_failed_to_retry m :
      Result.status (State.result s') = FAILED →
      failures evs = [m] →
      Result.error_message (State.result s') = Some m →
      Result.estimated_cost_usd (State.result s') = Result.estimated_cost_usd (State.result s) →
      _is_retryable_error m = true →
      Config.retry_on_failure config && (attempt <? Config.max_retries config) = true →
      pass_exit config attempt s s' evs (Ok (Continue (attempt + 1)))
  | pass_hung :
      pass_exit config attempt s s' evs Diverge.

(** What the retry loop has done when it is left, started at attempt
    number [attempt] in state [s]: it made no pass, or it ended on a pass
    that completed, or on one that failed; [fs] are the messages of the
    failed passes before the last one. *)
Inductive loop_summary {W} (config : AnalysisConfig) (attempt : Z) (s s' : state W)
    (evs : list event) : Prop :=
  | loop_no_pass :
      (attempt <? max_attempts_of config) = false →
      evs = [] →
      s' = s →
      loop_summary config attempt s s' evs
  | loop_completed fs d :
      failures evs = fs →
      deploy_attempts evs = S (length fs) →
      forallb _is_retryable_error fs = true →
      Result.status (State.result s') = COMPLETED →
      attempt + Z.of_nat (length fs) < max_attempts_of config →
      (fs ≠ [] → Config.retry_on_failure config = true
                 ∧ attempt + Z.of_nat (length fs) ≤ Config.max_retries config) →
      Result.retry_count (State.result s') =
        (if 0 <? attempt + Z.of_nat (length fs) then attempt + Z.of_nat (length fs)
         else Result.retry_count (State.result s)) →
      Result.error_message (State.result s') =
        match last fs with
        | Some m => Some m
        | None => Result.error_message (State.result s)
        end →
      Result.duration_seconds (State.result s') = Some d →
      Result.estimated_cost_usd (State.result s') =
        match ENGINE_COSTS !! Config.engine_size config with
        | Some rate =>
            Some (PrimFloat.mul (PrimFloat.div (PrimFloat.div d 60%float) 60%float) rate)
        | None => Result.estimated_cost_usd (State.result s)
        end →
      has_graph_source (Result.config (State.result s)) = true →
      loop_summary config attempt s s' evs
  | loop_failed fs m :
      failures evs = fs ++ [m] →
      deploy_attempts evs = S (length fs) →
      forallb _is_retryable_error fs = true →
      Result.status (State.result s') = FAILED →
      attempt + Z.of_nat (length fs) < max_attempts_of config →
      (fs ≠ [] → Config.retry_on_failure config = true
                 ∧ attempt + Z.of_nat (length fs) ≤ Config.max_retries config) →
      Result.retry_count (State.result s') =
        (if 0 <? attempt + Z.of_nat (length fs) then attempt + Z.of_nat (length fs)
         else Result.retry_count (State.result s)) →
      Result.error_message (State.result s') = Some m →
      Result.estimated_cost_usd (State.result s') = Result.estimated_cost_usd (State.result s) →
      _is_retryable_error m = false ∨
      Config.retry_on_failure config &&
        (attempt + Z.of_nat (length fs) <? Config.max_retries config) = false →
      loop_summary config attempt s s' evs.

(** The events of the checks before the loop. *)
Definition is_preflight (e : event) : bool :=
  match e with
  | EvCall (CGetGaeConnection | CGetDbConnection | CListEngines) _ => true
  | EvLog (LogCouldNotCheckEngines _) => true
  | _ => false
  end.

(** The checks before the loop leave the result and the history alone. *)
Definition preflight_step {W} (s s' : state W) : Prop :=
  State.result s' = State.result s
  ∧ State.analysis_history s' = State.analysis_history s
  ∧ grows is_preflight s s'.

(** The cost a completed run records, from the duration it records. *)
Definition cost_of (config : AnalysisConfig) (duration_seconds : float) : option float :=
  match ENGINE_COSTS !! Config.engine_size config with
  | Some rate =>
      Some (PrimFloat.mul
              (PrimFloat.div (PrimFloat.div duration_seconds 60%float) 60%float) rate)
  | None => None
  end.

(** ** The monad, step by step *)

Section Frames.
Context {W : Type} `{GAE : GAEConnection W}.
Context (R : relation (state W)) `{!PreOrder R}.

Lemma frame_ret {A} (a : A) : frame R (ret_ a).
Proof. intros s o s' [= <- <-]. reflexivity. Qed.

Lemma frame_raise {A} (e : exn) : frame R (raise (A := A) e).
Proof. intros s o s' [= <- <-]. reflexivity. Qed.

Lemma frame_diverge {A} : frame R (diverge (A := A)).
Proof. intros s o s' [= <- <-]. reflexivity. Qed.

Lemma frame_lift {A} (x : outcome A) : frame R (lift x).
Proof. intros s o s' [= <- <-]. reflexivity. Qed.

Lemma frame_gets {A} (f : state W → A) : frame R (gets f).
Proof. intros s o s' [= <- <-]. reflexivity. Qed.

Lemma frame_read {A} (f : AnalysisResult → A) : frame R (read f).
Proof. apply frame_gets. Qed.

Lemma frame_modify (f : state W → state W) :
  (∀ s, R s (f s)) → frame R (modify f).
Proof. intros Hf s o s' [= <- <-]. apply Hf. Qed.

Lemma frame_bind {A B} (m : M W A) (k : A → M W B) :
  frame R m → (∀ a, frame R (k a)) → frame R (bind m k).
Proof.
  intros Hm Hk s o s'. unfold bind.
  destruct (m s) as [[a|e|] s1] eqn:E; intros H.
  - transitivity s1; [eapply Hm, E | eapply Hk, H].
  - injection H as <- <-. eapply Hm, E.
  - injection H as <- <-. eapply Hm, E.
Qed.

Lemma frame_try_except {A} (m : M W A) (h : exn → M W A) :
  frame R m → (∀ e, frame R (h e)) → frame R (try_except m h).
Proof.
  intros Hm Hh s o s'. unfold try_except.
  destruct (m s) as [[a|e|] s1] eqn:E; intros H.
  - injection H as <- <-. eapply Hm, E.
  - transitivity s1; [eapply Hm, E | eapply Hh, H].
  - injection H as <- <-. eapply Hm, E.
Qed.

Lemma frame_try_finally {A} (m : M W A) (f : state W → state W) :
  frame R m → (∀ s, R s (f s)) → frame R (try_finally m f).
Proof.
  intros Hm Hf s o s'. unfold try_finally.
  destruct (m s) as [[a|e|] s1] eqn:E; intros [= <- <-].
  - transitivity s1; [eapply Hm, E | apply Hf].
  - transitivity s1; [eapply Hm, E | apply Hf].
  - eapply Hm, E.
Qed.

Lemma frame_invoke {A} (c : call) (f : A → value) (op : W → outcome A * W) :
  (∀ s w r, R s (State.emit (EvCall c r) (State.set_world w s))) →
  frame R (invoke c f op).
Proof.
  intros Hc s o s'. unfold invoke.
  destruct (op (State.world s)) as [o1 w]. intros [= <- <-]. apply Hc.
Qed.

Lemma frame_clock : (∀ s w, R s (State.set_world w s)) → frame R clock.
Proof.
  intros Hw s o s'. unfold clock.
  destruct (now (State.world s)) as [t w]. intros [= <- <-]. apply Hw.
Qed.

Lemma frame_time_sleep (n : Z) : (∀ s w, R s (State.set_world w s)) → frame R (time_sleep n).
Proof. intros Hw. apply frame_modify. intros s. apply Hw. Qed.
End Frames.

(** Splits a computation along its binds, handlers and branches, and
    leaves the assignments and calls to [leaf]. *)
Ltac frame_split leaf :=
  repeat first
    [ leaf
    | apply frame_ret; exact _
    | apply frame_raise; exact _
    | apply frame_diverge; exact _
    | apply frame_lift; exact _
    | apply frame_read; exact _
    | apply frame_gets; exact _
    | apply frame_bind; [ exact _ | | intros ? ]
    | apply frame_try_except; [ exact _ | | intros ? ]
    | apply frame_try_finally; [ exact _ | | intros ? ]
    | apply frame_invoke; intros ? ? ?
    | apply frame_clock; intros ? ?
    | apply frame_time_sleep; intros ? ?
    | apply frame_modify; intros ?
    | match goal with
      | |- frame _ (if ?b then _ else _) => destruct b
      | |- frame _ (match ?x with _ => _ end) => destruct x
      end ].

(** ** The steps after the deploy *)

Section Quiet.
Context {W : Type} `{GAE : GAEConnection W}.

Lemma untouched_preorder : PreOrder (untouched (W := W)).
Proof.
  split.
  - intros s. constructor; reflexivity.
  - intros s1 s2 s3 [] []. constructor; congruence.
Qed.
#[local] Existing Instance untouched_preorder.

Lemma grows_refl (P : event → bool) (s : state W) : grows P s s.
Proof. exists []. split; [symmetry; apply app_nil_r | reflexivity]. Qed.

Lemma grows_trans (P : event → bool) (s1 s2 s3 : state W) :
  grows P s1 s2 → grows P s2 s3 → grows P s1 s3.
Proof.
  intros (e1 & H1 & F1) (e2 & H2 & F2). exists (e1 ++ e2). split.
  - rewrite H2, H1. symmetry. apply app_assoc.
  - rewrite forallb_app, F1, F2. reflexivity.
Qed.

Lemma grows_preorder (P : event → bool) : PreOrder (grows (W := W) P).
Proof. split; [intros s; apply grows_refl | intros s1 s2 s3; apply grows_trans]. Qed.
#[local] Existing Instance grows_preorder.

Lemma quiet_step_preorder : PreOrder (quiet_step (W := W)).
Proof.
  split.
  - intros s. split; reflexivity.
  - intros s1 s2 s3 [U1 G1] [U2 G2]. split; etransitivity; eassumption.
Qed.
#[local] Existing Instance quiet_step_preorder.

Lemma grows_one (P : event → bool) (e : event) (s s' : state W) :
  P e = true → State.trace s' = State.trace s ++ [e] → grows P s s'.
Proof. intros He Ht. exists [e]. split; [exact Ht|]. simpl. rewrite He. reflexivity. Qed.

Lemma grows_none (P : event → bool) (s s' : state W) :
  State.trace s' = State.trace s → grows P s s'.
Proof. intros Ht. exists []. split; [rewrite Ht; symmetry; apply app_nil_r | reflexivity]. Qed.
End Quiet.

Ltac grows_leaf :=
  first [ apply grows_none; reflexivity
        | eapply grows_one; [ | reflexivity ]; reflexivity ].

Ltac quiet_leaf :=
  idtac;
  match goal with
  | |- quiet_step _ _ => split; [ constructor; reflexivity | grows_leaf ]
  end.

Section QuietSteps.
Context {W : Type} `{GAE : GAEConnection W}.
#[local] Existing Instance quiet_step_preorder.

Lemma poll_loop_quiet fuel job_id description poll_interval start_time :
  frame quiet_step (poll_loop fuel job_id description poll_interval start_time).
Proof.
  induction fuel as [|fuel IH]; simpl.
  - apply frame_diverge; exact _.
  - frame_split ltac:(first [ exact IH | quiet_leaf ]).
Qed.

Lemma _wait_for_job_quiet fuel job_id description :
  frame quiet_step (_wait_for_job fuel job_id description).
Proof. unfold _wait_for_job. frame_split ltac:(first [ apply poll_loop_quiet | quiet_leaf ]). Qed.

Lemma load_graph_quiet database vs es graph_name attrs :
  frame quiet_step (load_graph database vs es graph_name attrs).
Proof. unfold load_graph. frame_split quiet_leaf. Qed.

Lemma store_results_quiet target job_ids names database :
  frame quiet_step (store_results target job_ids names database).
Proof. unfold store_results. frame_split quiet_leaf. Qed.

Lemma format_thousands_quiet v : frame (W := W) quiet_step (format_thousands v).
Proof. unfold format_thousands. frame_split quiet_leaf. Qed.

Lemma execution_time_check_quiet job_result :
  frame (W := W) quiet_step (execution_time_check job_result).
Proof. unfold execution_time_check. frame_split quiet_leaf. Qed.

Lemma _load_graph_quiet fuel : frame quiet_step (_load_graph fuel).
Proof.
  unfold _load_graph.
  frame_split ltac:(first [ apply _wait_for_job_quiet | apply load_graph_quiet
                          | apply format_thousands_quiet | quiet_leaf ]).
Qed.

Lemma _run_algorithm_quiet fuel : frame quiet_step (_run_algorithm fuel).
Proof.
  unfold _run_algorithm.
  frame_split ltac:(first [ apply _wait_for_job_quiet | apply execution_time_check_quiet
                          | quiet_leaf ]).
Qed.

Lemma _store_results_quiet fuel : frame quiet_step (_store_results fuel).
Proof.
  unfold _store_results.
  frame_split ltac:(first [ apply _wait_for_job_quiet | apply store_results_quiet
                          | apply format_thousands_quiet | quiet_leaf ]).
Qed.
End QuietSteps.

(** ** The workflow steps, executed symbolically *)

(** Runs the computation in [H : m s = (o, s')] through its binds and
    branches, one case per way it can go. *)
Ltac run_in H :=
  repeat first
    [ progress cbv beta iota delta
        [bind try_except try_finally ret_ raise diverge gets modify lift read assign
         set_status _log invoke clock time_sleep] in H
    | match type of H with
      | context [match ?x with _ => _ end] =>
          lazymatch x with
          | context [match _ with _ => _ end] => fail
          | _ => destruct x eqn:?
          end
      end ];
  try discriminate H.

Section Steps.
Context {W : Type} `{GAE : GAEConnection W}.
Implicit Types s : state W.

Lemma _deploy_engine_spec s o s' :
  _deploy_engine s = (o, s') →
  ∃ r,
    State.trace s' =
      State.trace s ++
      [EvStatus ENGINE_DEPLOYING;
       EvCall (CDeployEngine (Config.engine_size (Result.config (State.result s)))
                 (Config.engine_type (Result.config (State.result s)))) r]
    ∧ Result.config (State.result s') = Result.config (State.result s)
    ∧ Result.start_time (State.result s') = Result.start_time (State.result s)
    ∧ Result.error_message (State.result s') = Result.error_message (State.result s)
    ∧ Result.retry_count (State.result s') = Result.retry_count (State.result s)
    ∧ Result.estimated_cost_usd (State.result s') = Result.estimated_cost_usd (State.result s)
    ∧ State.analysis_history s' = State.analysis_history s
    ∧ State.current_analysis s' = State.current_analysis s.
Proof.
  intros H. unfold _deploy_engine in H. run_in H.
  all: injection H as <- <-; eexists; simpl; rewrite <- app_assoc; simpl.
  all: repeat split; reflexivity.
Qed.

Lemma deploy_attempts_app (a b : list event) :
  deploy_attempts (a ++ b) = (deploy_attempts a + deploy_attempts b)%nat.
Proof. unfold deploy_attempts. rewrite filter_app, length_app. reflexivity. Qed.

Lemma failures_app (a b : list event) : failures (a ++ b) = failures a ++ failures b.
Proof. apply omap_app. Qed.

Lemma deletions_app (a b : list event) : deletions (a ++ b) = deletions a ++ deletions b.
Proof. apply omap_app. Qed.

Lemma requests_app (a b : list event) :
  List.filter is_request (a ++ b) =
  List.filter is_request a ++ List.filter is_request b.
Proof. apply List.filter_app. Qed.

Lemma quiet_events (evs : list event) :
  forallb quiet evs = true →
  deploy_attempts evs = 0%nat ∧ failures evs = [] ∧ deletions evs = [].
Proof.
  induction evs as [|e evs IH]; simpl; [auto|].
  intros [He Hevs]%andb_prop. destruct (IH Hevs) as (D & F & X).
  unfold deploy_attempts, failures, deletions in *. simpl.
  destruct e as [[] ?|[]|[]]; simpl in *; try discriminate He; auto.
Qed.

Lemma same_but_status_fields (r r' : AnalysisResult) :
  same_but_status r r' →
  Result.config r' = Result.config r
  ∧ Result.start_time r' = Result.start_time r
  ∧ Result.engine_id r' = Result.engine_id r
  ∧ Result.error_message r' = Result.error_message r
  ∧ Result.retry_count r' = Result.retry_count r
  ∧ Result.estimated_cost_usd r' = Result.estimated_cost_usd r
  ∧ Result.duration_seconds r' = Result.duration_seconds r.
Proof.
  unfold same_but_status. intros H.
  repeat split.
  - apply (f_equal Result.config) in H. exact H.
  - apply (f_equal Result.start_time) in H. exact H.
  - apply (f_equal Result.engine_id) in H. exact H.
  - apply (f_equal Result.error_message) in H. exact H.
  - apply (f_equal Result.retry_count) in H. exact H.
  - apply (f_equal Result.estimated_cost_usd) in H. exact H.
  - apply (f_equal Result.duration_seconds) in H. exact H.
Qed.

(** [_cleanup_engine]: the status goes to CLEANING_UP, [delete_engine] is
    called on the recorded identifier, and the [finally] block puts a
    terminal status back whether the call returned or raised. *)
Lemma _cleanup_engine_spec s o s' :
  _cleanup_engine s = (o, s') →
  ∃ r,
    State.trace s' =
      State.trace s ++
      EvStatus CLEANING_UP :: EvCall (CDeleteEngine (Result.engine_id (State.result s))) r ::
      (if is_terminal (Result.status (State.result s))
       then match r with Hung => [] | _ => [EvStatus (Result.status (State.result s))] end
       else [])
    ∧ match r with
      | Returned _ => o = Ok tt
      | Raised e => o = Raise e
      | Hung => o = Diverge
      end
    ∧ Result.status (State.result s') =
        match r with
        | Hung => CLEANING_UP
        | _ => if is_terminal (Result.status (State.result s))
               then Result.status (State.result s) else CLEANING_UP
        end
    ∧ same_but_status (State.result s) (State.result s')
    ∧ State.analysis_history s' = State.analysis_history s
    ∧ State.current_analysis s' = State.current_analysis s.
Proof.
  intros H. unfold _cleanup_engine in H. run_in H.
  all: injection H as <- <-.
  all: match goal with
       | E : delete_engine _ _ = (?x, _) |- _ => exists (ret_of VDict x)
       end.
  all: simpl; rewrite <- ?app_assoc; simpl.
  all: try destruct (is_terminal (Result.status (State.result s))).
  all: repeat split; reflexivity.
Qed.

Lemma ENGINE_COSTS_positive (size : string) (rate : float) :
  ENGINE_COSTS !! size = Some rate → PrimFloat.ltb 0%float rate = true.
Proof.
  unfold ENGINE_COSTS.
  repeat (rewrite lookup_insert; case_decide; [intros [= <-]; reflexivity|]).
  rewrite lookup_empty. discriminate.
Qed.

Lemma after_deploy_quiet fuel :
  frame quiet_step
    (let* _ := _load_graph fuel in
     let* _ := _run_algorithm fuel in
     _store_results fuel).
Proof.
  pose proof (quiet_step_preorder (W := W)).
  frame_split ltac:(first [ apply _load_graph_quiet | apply _run_algorithm_quiet
                          | apply _store_results_quiet ]).
Qed.

(** Without a graph source, [load_graph] raises before it sends anything. *)
Lemma _load_graph_without_source fuel s :
  has_graph_source (Result.config (State.result s)) = false →
  _load_graph fuel s =
  (Raise (mk_exn ValueError
            "Must specify either graph_name or both vertex_collections and edge_collections"),
   put_status GRAPH_LOADING s).
Proof.
  unfold has_graph_source. intros Hsrc.
  unfold _load_graph, load_graph.
  cbv beta iota delta [bind set_status modify read gets opt_str opt_strs strs].
  simpl.
  destruct (Config.vertex_collections (Result.config (State.result s)));
    destruct (Config.edge_collections (Result.config (State.result s)));
    first [ discriminate Hsrc | reflexivity ].
Qed.

(** The four steps of the [try] block: one call of [deploy_engine], no
    call of [delete_engine], and nothing recorded as a failure. *)
Lemma workflow_spec fuel s o s' :
  workflow fuel s = (o, s') →
  ∃ evs,
    State.trace s' = State.trace s ++ evs
    ∧ deploy_attempts evs = 1%nat
    ∧ failures evs = []
    ∧ deletions evs = []
    ∧ Result.config (State.result s') = Result.config (State.result s)
    ∧ Result.start_time (State.result s') = Result.start_time (State.result s)
    ∧ Result.retry_count (State.result s') = Result.retry_count (State.result s)
    ∧ Result.error_message (State.result s') = Result.error_message (State.result s)
    ∧ Result.estimated_cost_usd (State.result s') = Result.estimated_cost_usd (State.result s)
    ∧ State.analysis_history s' = State.analysis_history s
    ∧ State.current_analysis s' = State.current_analysis s
    ∧ (has_graph_source (Result.config (State.result s)) = false →
       o ≠ Ok tt ∧ List.filter is_request evs = []).
Proof.
  intros H. unfold workflow in H. unfold bind at 1 in H.
  destruct (_deploy_engine s) as [od s1] eqn:D.
  apply _deploy_engine_spec in D as (r & Ht & Hc & Hst & He & Hr & Hx & Hh & Hcur).
  assert (Hdep : ∀ evs, forallb quiet evs = true →
            deploy_attempts ([EvStatus ENGINE_DEPLOYING;
               EvCall (CDeployEngine (Config.engine_size (Result.config (State.result s)))
                         (Config.engine_type (Result.config (State.result s)))) r] ++ evs) = 1%nat
            ∧ failures ([EvStatus ENGINE_DEPLOYING;
               EvCall (CDeployEngine (Config.engine_size (Result.config (State.result s)))
                         (Config.engine_type (Result.config (State.result s)))) r] ++ evs) = []
            ∧ deletions ([EvStatus ENGINE_DEPLOYING;
               EvCall (CDeployEngine (Config.engine_size (Result.config (State.result s)))
                         (Config.engine_type (Result.config (State.result s)))) r] ++ evs) = []).
  { intros evs (D0 & F0 & X0)%quiet_events.
    rewrite deploy_attempts_app, failures_app, deletions_app, D0, F0, X0. auto. }
  destruct od as [[]|e|].
  - (* the deploy returned *)
    destruct (has_graph_source (Result.config (State.result s))) eqn:Hsrc.
    + apply after_deploy_quiet in H as [[] (evs & Hevs & Hq)].
      exists ([EvStatus ENGINE_DEPLOYING;
               EvCall (CDeployEngine (Config.engine_size (Result.config (State.result s)))
                         (Config.engine_type (Result.config (State.result s)))) r] ++ evs).
      destruct (Hdep evs Hq) as (? & ? & ?).
      split; [rewrite Hevs, Ht, <- app_assoc; reflexivity|].
      repeat (split; [congruence|]). discriminate.
    + unfold bind at 1 in H.
      rewrite _load_graph_without_source in H by congruence.
      injection H as <- <-.
      exists [EvStatus ENGINE_DEPLOYING;
              EvCall (CDeployEngine (Config.engine_size (Result.config (State.result s)))
                        (Config.engine_type (Result.config (State.result s)))) r;
              EvStatus GRAPH_LOADING].
      split; [simpl; rewrite Ht, <- app_assoc; reflexivity|].
      simpl. repeat (split; [first [reflexivity | assumption]|]).
      intros _. split; [discriminate | reflexivity].
  - injection H as <- <-. eexists. split; [exact Ht|].
    simpl. repeat (split; [first [reflexivity | assumption]|]).
    intros _. split; [discriminate | reflexivity].
  - injection H as <- <-. eexists. split; [exact Ht|].
    simpl. repeat (split; [first [reflexivity | assumption]|]).
    intros _. split; [discriminate | reflexivity].
Qed.

(** The [except] block of the retry loop. *)
Lemma handle_failure_spec config attempt e s o s' :
  handle_failure config attempt e s = (o, s') →
  ∃ evs,
    State.trace s' = State.trace s ++ evs
    ∧ failures evs = [exn_str e]
    ∧ deploy_attempts evs = 0%nat
    ∧ List.filter is_request evs = []
    ∧ Result.config (State.result s') = Result.config (State.result s)
    ∧ Result.start_time (State.result s') = Result.start_time (State.result s)
    ∧ Result.retry_count (State.result s') = Result.retry_count (State.result s)
    ∧ Result.estimated_cost_usd (State.result s') = Result.estimated_cost_usd (State.result s)
    ∧ State.analysis_history s' = State.analysis_history s
    ∧ State.current_analysis s' = State.current_analysis s
    ∧ Result.error_message (State.result s') = Some (exn_str e)
    ∧ failure_exit config attempt (exn_str e) (Result.engine_id (State.result s)) o
        (deletions evs) (Result.engine_id (State.result s')) (Result.status (State.result s')).
Proof.
  intros H. unfold handle_failure, _cleanup_engine in H.
  destruct (_is_retryable_error (exn_str e)) eqn:Hretryable.
  all: run_in H.
  all: simpl in *; try discriminate.
  all: injection H as <- <-; simpl; rewrite <- ?app_assoc; simpl.
  all: eexists; split; [reflexivity|].
  all: repeat (split; [reflexivity|]).
  all: first [ apply exit_not_retryable; assumption
             | apply exit_no_attempt_left; assumption
             | apply exit_retry_without_engine; assumption
             | apply exit_retry_engine_deleted; assumption
             | apply exit_retry_delete_raised; assumption
             | apply exit_retry_delete_hung; assumption ].
Qed.

(** The end of the [try] block of the retry loop. *)
Lemma mark_completed_spec config s o s' :
  mark_completed config s = (o, s') →
  o = Ok Break
  ∧ ∃ evs d,
      State.trace s' = State.trace s ++ evs
      ∧ failures evs = []
      ∧ deploy_attempts evs = 0%nat
      ∧ deletions evs = []
      ∧ List.filter is_request evs = []
      ∧ Result.status (State.result s') = COMPLETED
      ∧ Result.config (State.result s') = Result.config (State.result s)
      ∧ Result.start_time (State.result s') = Result.start_time (State.result s)
      ∧ Result.retry_count (State.result s') = Result.retry_count (State.result s)
      ∧ Result.error_message (State.result s') = Result.error_message (State.result s)
      ∧ Result.engine_id (State.result s') = Result.engine_id (State.result s)
      ∧ State.analysis_history s' = State.analysis_history s
      ∧ State.current_analysis s' = State.current_analysis s
      ∧ Result.duration_seconds (State.result s') = Some d
      ∧ Result.estimated_cost_usd (State.result s') =
          match cost_of config d with
          | Some c => Some c
          | None => Result.estimated_cost_usd (State.result s)
          end.
Proof.
  intros H. unfold mark_completed in H. run_in H.
  all: injection H as <- <-; split; [reflexivity|].
  all: simpl; rewrite <- ?app_assoc; simpl.
  all: eexists; eexists; split; [reflexivity|].
  all: repeat (split; [reflexivity|]).
  all: unfold cost_of.
  all: destruct (ENGINE_COSTS !! Config.engine_size config) as [rate|] eqn:E; simpl in *.
  all: first
         [ reflexivity
         | discriminate
         | apply ENGINE_COSTS_positive in E; congruence
         | match goal with
           | Hlt : PrimFloat.ltb _ _ = true |- _ => vm_compute in Hlt; discriminate Hlt
           end ].
Qed.

(** The [try] statement of the loop body, from the state the attempt
    starts in. *)
Lemma attempt_spec fuel config attempt s o s' :
  try_except (let* _ := workflow fuel in mark_completed config)
    (handle_failure config attempt) s = (o, s') →
  ∃ evs,
    State.trace s' = State.trace s ++ evs
    ∧ deploy_attempts evs = 1%nat
    ∧ Result.config (State.result s') = Result.config (State.result s)
    ∧ Result.start_time (State.result s') = Result.start_time (State.result s)
    ∧ State.analysis_history s' = State.analysis_history s
    ∧ State.current_analysis s' = State.current_analysis s
    ∧ Result.retry_count (State.result s') = Result.retry_count (State.result s)
    ∧ (has_graph_source (Result.config (State.result s)) = false →
       List.filter is_request evs = [])
    ∧ pass_exit config attempt s s' evs o.
Proof.
  intros H. unfold try_except in H.
  destruct ((let* _ := workflow fuel in mark_completed config) s) as [ob s1] eqn:B.
  unfold bind in B.
  destruct (workflow fuel s) as [ow s2] eqn:Wf.
  apply workflow_spec in Wf
    as (ew & Ht & Hd & Hf & Hx & Hc & Hst & Hr & He & Hcost & Hh & Hcur & Hsrc).
  destruct ow as [[]|e|].
  - (* the four steps went through *)
    apply mark_completed_spec in B
      as (-> & em & d & Ht' & Hf' & Hd' & Hx' & Hl' & Hs' & Hc' & Hst' & Hr' & He' & Hi' & Hh'
          & Hcur' & Hdur & Hcost').
    injection H as <- <-.
    exists (ew ++ em). rewrite deploy_attempts_app, requests_app, Hd, Hd', Hl'.
    split; [rewrite Ht', Ht, app_assoc; reflexivity|].
    repeat (split; [first [reflexivity | congruence]|]).
    split.
    + intros Hno. destruct (Hsrc Hno) as [Hne _]. congruence.
    + apply pass_completed with (d := d); try congruence.
      * rewrite failures_app, Hf, Hf'. reflexivity.
      * rewrite Hcost'. unfold cost_of.
        destruct (ENGINE_COSTS !! Config.engine_size config); congruence.
      * destruct (has_graph_source (Result.config (State.result s))); [reflexivity|].
        destruct Hsrc as [Hne _]; [reflexivity | congruence].
  - (* one of them raised *)
    injection B as <- <-.
    apply handle_failure_spec in H
      as (eh & Ht' & Hf' & Hd' & Hl' & Hc' & Hst' & Hr' & Hcost' & Hh' & Hcur' & He' & Hexit).
    exists (ew ++ eh). rewrite deploy_attempts_app, requests_app, Hd, Hd', Hl'.
    split; [rewrite Ht', Ht, app_assoc; reflexivity|].
    repeat (split; [first [reflexivity | congruence]|]).
    split.
    + intros Hno. destruct (Hsrc Hno) as [_ ->]. reflexivity.
    + assert (Hfs : failures (ew ++ eh) = [exn_str e])
        by (rewrite failures_app, Hf, Hf'; reflexivity).
      inversion Hexit; subst.
      * eapply pass_failed_for_good; eauto; congruence.
      * eapply pass_failed_for_good; eauto; congruence.
      * eapply pass_failed_to_retry; eauto; congruence.
      * eapply pass_failed_to_retry; eauto; congruence.
      * eapply pass_failed_to_retry; eauto; congruence.
      * apply pass_hung.
  - (* one of them never came back *)
    injection B as <- <-. injection H as <- <-.
    exists ew. repeat (split; [first [assumption | reflexivity]|]).
    split; [intros Hno; apply Hsrc, Hno | apply pass_hung].
Qed.

(** The state the [try] statement starts in. *)
Lemma iteration_unfold fuel config attempt s :
  iteration fuel config attempt s =
  try_except (let* _ := workflow fuel in mark_completed config)
    (handle_failure config attempt)
    (if 0 <? attempt
     then State.emit (EvLog (LogRetryAttempt attempt (Config.max_retries config)))
            (State.set_result (Result.set_retry_count attempt (State.result s)) s)
     else s).
Proof. unfold iteration. unfold bind at 1. destruct (0 <? attempt); reflexivity. Qed.

(** One pass through the body of the retry loop. *)
Lemma iteration_spec fuel config attempt s o s' :
  iteration fuel config attempt s = (o, s') →
  ∃ evs, pass_post config attempt s s' evs ∧ pass_exit config attempt s s' evs o.
Proof.
  intros H. rewrite iteration_unfold in H.
  apply attempt_spec in H as (evs & Ht & Hd & Hc & Hst & Hh & Hcur & Hr & Hsrc & Hexit).
  destruct (0 <? attempt) eqn:Hpos.
  - exists (EvLog (LogRetryAttempt attempt (Config.max_retries config)) :: evs).
    split.
    + constructor; try assumption.
      * rewrite Ht. simpl. rewrite <- app_assoc. reflexivity.
      * rewrite Hpos. exact Hr.
    + inversion Hexit; subst.
      * eapply pass_completed; eassumption.
      * eapply pass_failed_for_good; eassumption.
      * eapply pass_failed_to_retry; eassumption.
      * apply pass_hung.
  - exists evs. split; [|exact Hexit].
    constructor; try assumption. rewrite Hpos. exact Hr.
Qed.

End Steps.

(** ** The retry loop *)

Section Loop.
Context {W : Type} `{GAE : GAEConnection W}.
Implicit Types s : state W.

(** The loop never lets an exception out, and it leaves the fields the
    passes leave alone as they were. *)
Lemma retry_loop_frame budget fuel config max_attempts attempt s o s' :
  retry_loop budget fuel config max_attempts attempt s = (o, s') →
  (∀ e, o ≠ Raise e)
  ∧ ∃ evs,
      State.trace s' = State.trace s ++ evs
      ∧ Result.config (State.result s') = Result.config (State.result s)
      ∧ Result.start_time (State.result s') = Result.start_time (State.result s)
      ∧ State.analysis_history s' = State.analysis_history s
      ∧ State.current_analysis s' = State.current_analysis s
      ∧ (has_graph_source (Result.config (State.result s)) = false →
         List.filter is_request evs = []).
Proof.
  revert attempt s. induction budget as [|budget IH]; intros attempt s; simpl.
  - destruct (attempt <? max_attempts); intros [= <- <-].
    all: split; [discriminate|]; exists []; rewrite app_nil_r; auto 10.
  - destruct (attempt <? max_attempts).
    2: { intros [= <- <-]. split; [discriminate|]. exists []. rewrite app_nil_r. auto 10. }
    unfold bind. destruct (iteration fuel config attempt s) as [oc s1] eqn:It.
    apply iteration_spec in It as (evs & [] & Hexit).
    destruct oc as [[|attempt']|e|].
    + intros [= <- <-]. split; [discriminate|]. exists evs. auto 10.
    + intros Hloop. apply IH in Hloop as (Hnr & evs2 & Ht & Hc & Hst & Hh & Hcur & Hsrc).
      split; [exact Hnr|]. exists (evs ++ evs2).
      split; [rewrite Ht, pass_trace0, app_assoc; reflexivity|].
      repeat (split; [congruence|]).
      intros Hno. rewrite requests_app, pass_no_source0 by exact Hno.
      apply Hsrc. congruence.
    + inversion Hexit.
    + intros [= <- <-]. split; [discriminate|]. exists evs. auto 10.
Qed.

Lemma last_after (m : string) (fs : list string) :
  last (m :: fs) = match last fs with Some x => Some x | None => Some m end.
Proof. destruct fs as [|x fs]; [reflexivity|]. rewrite last_cons. destruct (last (x :: fs)); reflexivity. Qed.

(** The loop, pass by pass. *)
Lemma retry_loop_spec budget fuel config attempt s s' :
  0 ≤ attempt →
  retry_loop budget fuel config (max_attempts_of config) attempt s = (Ok tt, s') →
  ∃ evs, State.trace s' = State.trace s ++ evs ∧ loop_summary config attempt s s' evs.
Proof.
  revert attempt s. induction budget as [|budget IH]; intros attempt s Hpos; simpl.
  - destruct (attempt <? max_attempts_of config) eqn:Hguard; [discriminate|].
    intros [= <-]. exists []. rewrite app_nil_r. split; [reflexivity|].
    apply loop_no_pass; auto.
  - destruct (attempt <? max_attempts_of config) eqn:Hguard.
    2: { intros [= <-]. exists []. rewrite app_nil_r. split; [reflexivity|].
         apply loop_no_pass; auto. }
    apply Z.ltb_lt in Hguard.
    unfold bind. destruct (iteration fuel config attempt s) as [oc s1] eqn:It.
    apply iteration_spec in It as (evs & [] & Hexit).
    destruct oc as [[|attempt']|e|]; try discriminate.
    + (* the pass ended the loop *)
      intros [= <-]. exists evs. split; [assumption|].
      inversion Hexit; subst.
      * eapply (loop_completed _ _ _ _ _ []); simpl; rewrite ?Z.add_0_r; eauto.
        congruence.
      * eapply (loop_failed _ _ _ _ _ [] m); simpl; rewrite ?Z.add_0_r; eauto.
        congruence.
    + (* the pass asked for a retry *)
      intros Hloop. inversion Hexit as [| |m Hs1 Hf1 He1 Hc1 Hm Hcond|]; subst.
      apply andb_prop in Hcond as [Hretry Hlt%Z.ltb_lt].
      assert (Hmax : max_attempts_of config = Config.max_retries config + 1)
        by (unfold max_attempts_of; rewrite Hretry; reflexivity).
      apply IH in Hloop as (evs2 & Ht2 & Hsum); [|lia].
      exists (evs ++ evs2). split; [rewrite Ht2, pass_trace0, app_assoc; reflexivity|].
      destruct Hsum as [Hguard2 -> ->
                       | fs d Hfs Hd Hall Hst Hbound Hne Hrc Herr Hdur Hcost Hsrc
                       | fs m2 Hfs Hd Hall Hst Hbound Hne Hrc Herr Hcost Hlast].
      * apply Z.ltb_ge in Hguard2. lia.
      * apply (loop_completed _ _ _ _ _ (m :: fs) d).
        -- rewrite failures_app, Hf1, Hfs. reflexivity.
        -- rewrite deploy_attempts_app, pass_deploys0, Hd. reflexivity.
        -- simpl. rewrite Hm, Hall. reflexivity.
        -- exact Hst.
        -- simpl length. lia.
        -- intros _. split; [exact Hretry|]. simpl length.
           destruct fs as [|x fs]; [simpl; lia|].
           destruct Hne as [_ Hle]; [discriminate|]. simpl length in *. lia.
        -- rewrite Hrc. simpl length.
           replace (attempt + 1 + Z.of_nat (length fs)) with (attempt + Z.of_nat (S (length fs)))
             by lia.
           destruct (0 <? attempt + Z.of_nat (S (length fs))) eqn:E; [reflexivity|].
           apply Z.ltb_ge in E. lia.
        -- rewrite Herr, last_after. destruct (last fs); congruence.
        -- exact Hdur.
        -- rewrite Hcost. destruct (ENGINE_COSTS !! Config.engine_size config); congruence.
        -- congruence.
      * apply (loop_failed _ _ _ _ _ (m :: fs) m2).
        -- rewrite failures_app, Hf1, Hfs. reflexivity.
        -- rewrite deploy_attempts_app, pass_deploys0, Hd. reflexivity.
        -- simpl. rewrite Hm, Hall. reflexivity.
        -- exact Hst.
        -- simpl length. lia.
        -- intros _. split; [exact Hretry|]. simpl length.
           destruct fs as [|x fs]; [simpl; lia|].
           destruct Hne as [_ Hle]; [discriminate|]. simpl length in *. lia.
        -- rewrite Hrc. simpl length.
           replace (attempt + 1 + Z.of_nat (length fs)) with (attempt + Z.of_nat (S (length fs)))
             by lia.
           destruct (0 <? attempt + Z.of_nat (S (length fs))) eqn:E; [reflexivity|].
           apply Z.ltb_ge in E. lia.
        -- exact Herr.
        -- congruence.
        -- simpl length.
           replace (attempt + Z.of_nat (S (length fs))) with (attempt + 1 + Z.of_nat (length fs))
             by lia.
           exact Hlast.
Qed.

(** Started with the budget [run_analysis] gives it, the loop can only
    fail to come back when one of its passes does. *)
Lemma retry_loop_budget budget fuel config attempt s s' :
  (Z.to_nat (max_attempts_of config - attempt) ≤ budget)%nat →
  retry_loop budget fuel config (max_attempts_of config) attempt s = (Diverge, s') →
  ∃ attempt0 s0 s1, iteration fuel config attempt0 s0 = (Diverge, s1).
Proof.
  revert attempt s. induction budget as [|budget IH]; intros attempt s Hb; simpl.
  - destruct (attempt <? max_attempts_of config) eqn:Hguard; [|discriminate].
    apply Z.ltb_lt in Hguard. lia.
  - destruct (attempt <? max_attempts_of config) eqn:Hguard; [|discriminate].
    apply Z.ltb_lt in Hguard.
    unfold bind. destruct (iteration fuel config attempt s) as [oc s1] eqn:It.
    destruct oc as [[|attempt']|e|]; try discriminate.
    + intros Hloop.
      pose proof It as It'. apply iteration_spec in It' as (evs & _ & Hexit).
      inversion Hexit; subst.
      apply IH in Hloop; [exact Hloop | lia].
    + intros _. exists attempt, s, s1. exact It.
Qed.

(** The cleanup after the loop. *)
Lemma final_cleanup_spec config s o s' :
  final_cleanup config s = (o, s') →
  (∀ e, o ≠ Raise e)
  ∧ ∃ post,
      State.trace s' = State.trace s ++ post
      ∧ deploy_attempts post = 0%nat
      ∧ failures post = []
      ∧ List.filter is_request post = []
      ∧ same_but_status (State.result s) (State.result s')
      ∧ State.analysis_history s' = State.analysis_history s
      ∧ State.current_analysis s' = State.current_analysis s
      ∧ (o = Ok tt →
         is_terminal (Result.status (State.result s)) = true
         ∨ Py.truthy (Result.engine_id (State.result s)) = false →
         Result.status (State.result s') = Result.status (State.result s))
      ∧ (o = Ok tt →
         Py.truthy (Result.engine_id (State.result s)) = true →
         Config.auto_cleanup config = true →
         ∃ how tail,
           post = EvStatus CLEANING_UP
                  :: EvCall (CDeleteEngine (Result.engine_id (State.result s))) how :: tail
           ∧ forallb (λ e, negb (is_call e)) tail = true
           ∧ how ≠ Hung).
Proof.
  intros H. unfold final_cleanup in H.
  cbv beta iota delta [bind read gets] in H.
  destruct (Py.truthy (Result.engine_id (State.result s))) eqn:Hid.
  2: { injection H as <- <-. split; [discriminate|]. exists []. rewrite app_nil_r.
       repeat (split; [reflexivity|]). intros _ [=]. }
  unfold try_except in H.
  destruct (Config.auto_cleanup config) eqn:Hauto.
  2: { cbv beta iota delta [_log modify] in H. injection H as <- <-.
       split; [discriminate|]. eexists [_].
       repeat (split; [reflexivity|]). intros _ _ [=]. }
  destruct (_cleanup_engine s) as [oc s1] eqn:C.
  apply _cleanup_engine_spec in C as (r & Ht & Hr & Hst & Hsame & Hh & Hcur).
  destruct r as [v|e|]; subst oc.
  - injection H as <- <-. split; [discriminate|]. eexists. split; [exact Ht|].
    destruct (is_terminal (Result.status (State.result s))) eqn:Hterm.
    all: repeat (split; [first [reflexivity | assumption]|]).
    all: split; [intros _ [?|?]; congruence|].
    all: intros _ _ _; eexists; eexists; split; [reflexivity|]; split; [reflexivity|discriminate].
  - cbv beta iota delta [bind read gets _log modify] in H. injection H as <- <-.
    split; [discriminate|]. eexists. split; [simpl; rewrite Ht, <- app_assoc; reflexivity|].
    destruct (is_terminal (Result.status (State.result s))) eqn:Hterm.
    all: repeat (split; [first [reflexivity | assumption]|]).
    all: split; [intros _ [?|?]; simpl; congruence|].
    all: intros _ _ _; eexists; eexists; split; [reflexivity|]; split; [reflexivity|discriminate].
  - injection H as <- <-. split; [discriminate|]. eexists. split; [exact Ht|].
    destruct (is_terminal (Result.status (State.result s))) eqn:Hterm.
    all: repeat (split; [first [reflexivity | assumption]|]).
    all: split; discriminate.
Qed.

End Loop.

(** ** run_analysis *)

Ltac preflight_leaf :=
  idtac;
  match goal with
  | |- preflight_step _ _ => split; [ reflexivity | split; [ reflexivity | grows_leaf ] ]
  end.

Section Run.
Context {W : Type} `{GAE : GAEConnection W}.
Implicit Types s : state W.

Lemma preflight_step_preorder : PreOrder (preflight_step (W := W)).
Proof.
  split.
  - intros s. split; [reflexivity | split; [reflexivity | apply grows_refl]].
  - intros s1 s2 s3 (R1 & H1 & G1) (R2 & H2 & G2).
    split; [congruence | split; [congruence | eapply grows_trans; eassumption]].
Qed.
#[local] Existing Instance preflight_step_preorder.

Lemma preflight_events (evs : list event) :
  forallb is_preflight evs = true →
  deploy_attempts evs = 0%nat ∧ failures evs = [] ∧ deletions evs = []
  ∧ List.filter is_request evs = [].
Proof.
  induction evs as [|e evs IH]; simpl; [auto|].
  intros [He Hevs]%andb_prop. destruct (IH Hevs) as (D & F & X & L).
  unfold deploy_attempts, failures, deletions in *. simpl.
  destruct e as [[] ?|[]|[]]; simpl in *; try discriminate He; auto.
Qed.

Lemma checks_preflight :
  frame preflight_step (let* _ := _initialize_connections in _check_existing_engines).
Proof.
  unfold _initialize_connections, _check_existing_engines.
  frame_split preflight_leaf.
Qed.

(** What [run_analysis] has done when the loop starts: a fresh result,
    and no call on the engine yet. *)
Lemma preflight_spec config s o s' :
  preflight config s = (o, s') →
  ∃ pre t,
    State.trace s' = State.trace s ++ pre
    ∧ deploy_attempts pre = 0%nat
    ∧ failures pre = []
    ∧ deletions pre = []
    ∧ List.filter is_request pre = []
    ∧ State.result s' = Result.new config t
    ∧ State.analysis_history s' = State.analysis_history s.
Proof.
  intros H. unfold preflight in H.
  unfold bind at 1 in H. unfold clock at 1 in H.
  destruct (now (State.world s)) as [t w].
  unfold bind at 1 in H. unfold modify at 1 in H.
  unfold bind at 1 in H. unfold modify at 1 in H.
  apply checks_preflight in H as (Hres & Hh & pre & Ht & Hpre).
  apply preflight_events in Hpre as (D & F & X & L).
  exists pre, t. simpl in *. repeat (split; [assumption|]). assumption.
Qed.

(** The whole run: the checks, the loop, the cleanup. *)
Lemma run_analysis_spec fuel config s o s' :
  run_analysis fuel config s = (o, s') →
  match o with
  | Raise e => preflight config s = (Raise e, s')
  | Diverge => True
  | Ok r =>
      ∃ s1 s2 pre evs post t,
        State.result s1 = Result.new config t
        ∧ State.trace s' = State.trace s ++ pre ++ evs ++ post
        ∧ (deploy_attempts pre = 0%nat ∧ failures pre = [] ∧ deletions pre = []
           ∧ List.filter is_request pre = [])
        ∧ (deploy_attempts post = 0%nat ∧ failures post = []
           ∧ List.filter is_request post = [])
        ∧ loop_summary config 0 s1 s2 evs
        ∧ (has_graph_source config = false → List.filter is_request evs = [])
        ∧ same_but_status (State.result s2) r
        ∧ Result.status r = Result.status (State.result s2)
        ∧ (Py.truthy (Result.engine_id r) = true →
           Config.auto_cleanup config = true →
           ∃ how tail,
             post = EvStatus CLEANING_UP :: EvCall (CDeleteEngine (Result.engine_id r)) how :: tail
             ∧ forallb (λ e, negb (is_call e)) tail = true
             ∧ how ≠ Hung)
        ∧ State.analysis_history s' = State.analysis_history s ++ [r]
  end.
Proof.
  intros H. unfold run_analysis in H. unfold bind at 1 in H.
  destruct (preflight config s) as [op s1] eqn:P.
  destruct op as [[]|e|]; [|injection H as <- <-; reflexivity|injection H as <- <-; exact I].
  apply preflight_spec in P as (pre & t & Htp & Hpre1 & Hpre2 & Hpre3 & Hpre4 & Hres & Hhist).
  unfold run_attempts in H. unfold bind at 1 in H.
  destruct (retry_loop (Z.to_nat (max_attempts_of config)) fuel config
              (max_attempts_of config) 0 s1) as [ol s2] eqn:L.
  pose proof L as L'. apply retry_loop_frame in L' as (Hnr & evs0 & Hte0 & Hcfg & _ & Hh2 & _ & Hsrc).
  destruct ol as [[]|e|]; [|destruct (Hnr e eq_refl)|injection H as <- <-; exact I].
  apply retry_loop_spec in L as (evs & Hte & Hsum); [|lia].
  unfold bind at 1 in H.
  destruct (final_cleanup config s2) as [oc s3] eqn:C.
  apply final_cleanup_spec in C
    as (Hnr3 & post & Htc & Hc1 & Hc2 & Hc3 & Hsame & Hh3 & Hcur3 & Hstat & Hdel).
  destruct oc as [[]|e|]; [|destruct (Hnr3 e eq_refl)|injection H as <- <-; exact I].
  cbv beta iota delta [bind gets modify ret_] in H. injection H as <- <-.
  assert (Hevs0 : evs0 = evs).
  { rewrite Hte0 in Hte. apply app_inv_head in Hte. exact Hte. }
  exists s1, s2, pre, evs, post, t.
  split; [exact Hres|].
  split; [simpl; rewrite Htc, Hte, Htp, <- !app_assoc; reflexivity|].
  split; [auto|]. split; [auto|]. split; [exact Hsum|].
  split; [intros Hno; subst evs0; apply Hsrc; rewrite Hres; exact Hno|].
  split; [exact Hsame|].
  assert (Hterm : is_terminal (Result.status (State.result s2)) = true
                  ∨ Py.truthy (Result.engine_id (State.result s2)) = false).
  { destruct Hsum as [_ _ ->| |].
    - right. rewrite Hres. reflexivity.
    - left. match goal with Hst : Result.status _ = COMPLETED |- _ => rewrite Hst end. reflexivity.
    - left. match goal with Hst : Result.status _ = FAILED |- _ => rewrite Hst end. reflexivity. }
  split; [apply Hstat; [reflexivity | exact Hterm]|].
  apply same_but_status_fields in Hsame as (_ & _ & Hid & _).
  split.
  - intros Htruthy Hauto. rewrite Hid in *. apply Hdel; auto.
  - simpl. rewrite Hh3, Hh2, Hhist. reflexivity.
Qed.

(** *** Coming back *)

Lemma _deploy_engine_returns s s' :
  (∀ size_id type_id w, fst (deploy_engine size_id type_id w) ≠ Diverge) →
  _deploy_engine s ≠ (Diverge, s').
Proof.
  intros Hd H. unfold _deploy_engine in H. run_in H.
  all: match goal with
       | E : deploy_engine ?a ?b ?c = (Diverge, _) |- _ =>
           apply (Hd a b c); rewrite E; reflexivity
       end.
Qed.

Lemma handle_failure_returns config attempt e s :
  (∀ id w, fst (delete_engine id w) ≠ Diverge) →
  ∃ c s', handle_failure config attempt e s = (Ok c, s').
Proof.
  intros Hd. destruct (handle_failure config attempt e s) as [o s'] eqn:H.
  unfold handle_failure, _cleanup_engine in H.
  destruct (_is_retryable_error (exn_str e)).
  all: run_in H.
  all: try (injection H as <- <-; eexists; eexists; reflexivity).
  all: match goal with
       | E : delete_engine ?a ?b = (Diverge, _) |- _ =>
           destruct (Hd a b); rewrite E; reflexivity
       end.
Qed.

(** The cleanup after the loop comes back whenever its call of
    [delete_engine] does, whether that call returns or raises. *)
Lemma final_cleanup_returns config s :
  fst (delete_engine (Result.engine_id (State.result s)) (State.world s)) ≠ Diverge →
  ∃ s', final_cleanup config s = (Ok tt, s').
Proof.
  intros Hd. destruct (final_cleanup config s) as [o s'] eqn:H.
  unfold final_cleanup, _cleanup_engine in H. run_in H.
  all: try (injection H as <- <-; eexists; reflexivity).
  all: match goal with
       | E : delete_engine _ _ = (Diverge, _) |- _ =>
           simpl in E; rewrite E in Hd; destruct Hd; reflexivity
       end.
Qed.

Lemma iteration_returns_without_source fuel config attempt s :
  (∀ size_id type_id w, fst (deploy_engine size_id type_id w) ≠ Diverge) →
  (∀ id w, fst (delete_engine id w) ≠ Diverge) →
  has_graph_source (Result.config (State.result s)) = false →
  ∃ c s', iteration fuel config attempt s = (Ok c, s').
Proof.
  intros Hdeploy Hdelete Hsrc. rewrite iteration_unfold.
  set (s0 := if 0 <? attempt then _ else s).
  assert (Hsrc0 : has_graph_source (Result.config (State.result s0)) = false)
    by (subst s0; destruct (0 <? attempt); exact Hsrc).
  clearbody s0. unfold try_except, bind at 1, workflow, bind at 1.
  destruct (_deploy_engine s0) as [[[]|e|] s1] eqn:D.
  - pose proof D as D'. apply _deploy_engine_spec in D' as (_ & _ & Hc & _).
    unfold bind at 1. rewrite _load_graph_without_source by (rewrite Hc; exact Hsrc0).
    apply handle_failure_returns, Hdelete.
  - apply handle_failure_returns, Hdelete.
  - destruct (_deploy_engine_returns _ _ Hdeploy D).
Qed.

Lemma retry_loop_returns_without_source budget fuel config max_attempts attempt s :
  (∀ size_id type_id w, fst (deploy_engine size_id type_id w) ≠ Diverge) →
  (∀ id w, fst (delete_engine id w) ≠ Diverge) →
  has_graph_source (Result.config (State.result s)) = false →
  (Z.to_nat (max_attempts - attempt) ≤ budget)%nat →
  ∃ s', retry_loop budget fuel config max_attempts attempt s = (Ok tt, s').
Proof.
  intros Hdeploy Hdelete. revert attempt s.
  induction budget as [|budget IH]; intros attempt s Hsrc Hb; simpl.
  - destruct (attempt <? max_attempts) eqn:Hguard; [|eexists; reflexivity].
    apply Z.ltb_lt in Hguard. lia.
  - destruct (attempt <? max_attempts) eqn:Hguard; [|eexists; reflexivity].
    apply Z.ltb_lt in Hguard. unfold bind.
    destruct (iteration_returns_without_source fuel config attempt s Hdeploy Hdelete Hsrc)
      as (c & s1 & It).
    rewrite It. destruct c as [|attempt']; [eexists; reflexivity|].
    apply iteration_spec in It as (evs & [] & Hexit). inversion Hexit; subst.
    apply IH; [congruence | lia].
Qed.

(** Without a graph source no job is ever polled, and the run comes back
    as soon as the checks before the loop pass and no call of
    [deploy_engine] or [delete_engine] hangs. *)
Lemma run_analysis_returns_without_source fuel config s :
  (∀ size_id type_id w, fst (deploy_engine size_id type_id w) ≠ Diverge) →
  (∀ id w, fst (delete_engine id w) ≠ Diverge) →
  has_graph_source config = false →
  fst (preflight config s) = Ok tt →
  ∃ r s', run_analysis fuel config s = (Ok r, s').
Proof.
  intros Hdeploy Hdelete Hsrc Hpre. unfold run_analysis, bind at 1.
  destruct (preflight config s) as [op s1] eqn:P. simpl in Hpre. subst op.
  apply preflight_spec in P as (pre & t & _ & _ & _ & _ & _ & Hres & _).
  unfold run_attempts, bind at 1.
  destruct (retry_loop_returns_without_source (Z.to_nat (max_attempts_of config)) fuel config
              (max_attempts_of config) 0 s1 Hdeploy Hdelete) as (s2 & ->).
  { rewrite Hres. exact Hsrc. }
  { rewrite Z.sub_0_r. reflexivity. }
  unfold bind at 1.
  destruct (final_cleanup_returns config s2 (Hdelete _ _)) as (s3 & ->).
  eexists. eexists. reflexivity.
Qed.

End Run.

(** ** The retry classifier *)

Section Classifier.
#[local] Arguments String.append : simpl nomatch.

Lemma prefix_spec (p s : string) :
  String.prefix p s = true ↔ ∃ post, s = p +:+ post.
Proof.
  revert s. induction p as [|c p IH]; intros s.
  - split; [intros _; exists s; reflexivity | intros _; destruct s; reflexivity].
  - destruct s as [|d s]; simpl.
    + split; [discriminate | intros [post [=]]].
    + destruct (Ascii.ascii_dec c d) as [->|Hne].
      * rewrite IH. split; intros [post H]; exists post; simpl in *; congruence.
      * split; [discriminate | intros [post H]; simpl in H; congruence].
Qed.

Lemma contains_spec (p s : string) :
  Py.contains p s = true ↔ ∃ pre post, s = pre +:+ p +:+ post.
Proof.
  induction s as [|c s IH]; cbn [Py.contains].
  - rewrite orb_false_r, prefix_spec. split.
    + intros [post H]. exists "", post. exact H.
    + intros (pre & post & H). destruct pre as [|d pre]; [|discriminate H].
      exists post. exact H.
  - rewrite orb_true_iff, prefix_spec, IH. split.
    + intros [[post H]|(pre & post & H)].
      * exists "", post. exact H.
      * exists (String c pre), post. simpl. rewrite H. reflexivity.
    + intros (pre & post & H). destruct pre as [|d pre]; simpl in H.
      * left. exists post. exact H.
      * right. injection H as -> ->. exists pre, post. reflexivity.
Qed.

Lemma append_assoc (a b c : string) : (a +:+ b) +:+ c = a +:+ (b +:+ c).
Proof. induction a as [|x a IH]; simpl; [reflexivity|rewrite IH; reflexivity]. Qed.

Lemma length_append (a b : string) :
  String.length (a +:+ b) = (String.length a + String.length b)%nat.
Proof. induction a as [|x a IH]; simpl; [reflexivity|rewrite IH; reflexivity]. Qed.

(** *** Case *)

Lemma lower_ascii_upper (n : N) :
  (65 ≤ n ≤ 90)%N → Py.lower_ascii (ascii_of_N n) = ascii_of_N (n + 32).
Proof.
  intros Hn. unfold Py.lower_ascii. rewrite N_ascii_embedding by lia.
  replace (65 <=? n)%N with true by (symmetry; apply N.leb_le; lia).
  replace (n <=? 90)%N with true by (symmetry; apply N.leb_le; lia).
  reflexivity.
Qed.

Lemma lower_ascii_lower (n : N) :
  (65 ≤ n ≤ 90)%N → Py.lower_ascii (ascii_of_N (n + 32)) = ascii_of_N (n + 32).
Proof.
  intros Hn. unfold Py.lower_ascii. rewrite N_ascii_embedding by lia.
  replace (n + 32 <=? 90)%N with false by (symmetry; apply N.leb_gt; lia).
  rewrite andb_false_r. reflexivity.
Qed.

Lemma same_letter_lower (c d : ascii) :
  same_letter c d ↔ Py.lower_ascii c = Py.lower_ascii d.
Proof.
  split.
  - intros [->|(n & Hn & [[-> ->]|[-> ->]])]; [reflexivity| |].
    + rewrite (lower_ascii_upper n Hn), (lower_ascii_lower n Hn). reflexivity.
    + rewrite (lower_ascii_upper n Hn), (lower_ascii_lower n Hn). reflexivity.
  - unfold Py.lower_ascii. cbv zeta.
    pose proof (ascii_N_embedding c) as Ec. pose proof (ascii_N_embedding d) as Ed.
    pose proof (N_ascii_bounded c) as Bc. pose proof (N_ascii_bounded d) as Bd.
    destruct ((65 <=? N_of_ascii c) && (N_of_ascii c <=? 90))%N eqn:Uc;
      destruct ((65 <=? N_of_ascii d) && (N_of_ascii d <=? 90))%N eqn:Ud.
    + apply andb_prop in Uc as [Uc1 Uc2]. apply andb_prop in Ud as [Ud1 Ud2].
      apply N.leb_le in Uc1, Uc2, Ud1, Ud2.
      intros H. apply (f_equal N_of_ascii) in H.
      rewrite !N_ascii_embedding in H by lia.
      left. rewrite <- Ec, <- Ed. f_equal. lia.
    + apply andb_prop in Uc as [Uc1 Uc2]. apply N.leb_le in Uc1, Uc2.
      intros H. right. exists (N_of_ascii c). split; [lia|]. left.
      rewrite Ec. split; [reflexivity|symmetry; exact H].
    + apply andb_prop in Ud as [Ud1 Ud2]. apply N.leb_le in Ud1, Ud2.
      intros H. right. exists (N_of_ascii d). split; [lia|]. right.
      rewrite Ed. split; [exact H|reflexivity].
    + intros ->. left. reflexivity.
Qed.

Lemma lower_ascii_is_ascii (c : ascii) : is_ascii (Py.lower_ascii c) = is_ascii c.
Proof.
  unfold Py.lower_ascii, is_ascii. cbv zeta.
  destruct ((65 <=? N_of_ascii c) && (N_of_ascii c <=? 90))%N eqn:U; [|reflexivity].
  apply andb_prop in U as [U1 U2]. apply N.leb_le in U1, U2.
  rewrite N_ascii_embedding by lia.
  transitivity true; [|symmetry]; apply N.ltb_lt; lia.
Qed.

Lemma is_ascii_plain (a b c : ascii) :
  is_ascii a = true →
  Py.is_dotted_capital_i a b = false ∧ Py.is_kelvin_sign a b c = false.
Proof.
  unfold is_ascii, Py.is_dotted_capital_i, Py.is_kelvin_sign. intros Ha.
  apply N.ltb_lt in Ha.
  assert (Ascii.eqb a "196" = false ∧ Ascii.eqb a "226" = false) as [-> ->]; [|auto].
  split; apply Ascii.eqb_neq; intros ->; simpl in Ha; lia.
Qed.

(** On a text that begins with a character of ASCII, [lower] folds that
    character and goes on. *)
Lemma lower_cons_ascii (c : ascii) (s : string) :
  is_ascii c = true → Py.lower (String c s) = String (Py.lower_ascii c) (Py.lower s).
Proof.
  intros Hc. destruct s as [|b [|d s]]; cbn [Py.lower]; try reflexivity.
  - destruct (is_ascii_plain c b b Hc) as [-> _]. reflexivity.
  - destruct (is_ascii_plain c b d Hc) as [-> ->]. reflexivity.
Qed.

Lemma lower_kelvin (s : string) : Py.lower (Py.kelvin_sign +:+ s) = String "k" (Py.lower s).
Proof. reflexivity. Qed.

Lemma lower_ascii_text (p : string) :
  ascii_text p = true → ascii_text (Py.lower p) = true.
Proof.
  induction p as [|c p IH]; [reflexivity|]. cbn [ascii_text]. intros H.
  apply andb_prop in H as [Hc Hp]. rewrite lower_cons_ascii by exact Hc.
  cbn [ascii_text]. rewrite lower_ascii_is_ascii, Hc. exact (IH Hp).
Qed.

(** A piece of the message that is the pattern up to case gives the
    lowered pattern at the head of the lowered rest of the message. *)
Lemma same_ignoring_case_prefix (mid pattern post : string) :
  same_ignoring_case mid pattern →
  ascii_text pattern = true →
  String.prefix (Py.lower pattern) (Py.lower (mid +:+ post)) = true.
Proof.
  induction 1 as [|c d text pattern Hcd _ IH|d text pattern Hd _ IH]; intros Hp.
  - change ("" +:+ post) with post. cbn [Py.lower]. destruct (Py.lower post); reflexivity.
  - cbn [ascii_text] in Hp. apply andb_prop in Hp as [Hdasc Hp].
    assert (Hc : is_ascii c = true).
    { apply same_letter_lower in Hcd.
      rewrite <- lower_ascii_is_ascii, Hcd, lower_ascii_is_ascii. exact Hdasc. }
    change (String c text +:+ post) with (String c (text +:+ post)).
    rewrite !lower_cons_ascii by assumption.
    apply same_letter_lower in Hcd. rewrite Hcd. cbn [String.prefix].
    destruct (Ascii.ascii_dec (Py.lower_ascii d) (Py.lower_ascii d)) as [_|Hne];
      [exact (IH Hp)|destruct Hne; reflexivity].
  - cbn [ascii_text] in Hp. apply andb_prop in Hp as [Hdasc Hp].
    change ((Py.kelvin_sign +:+ text) +:+ post) with (Py.kelvin_sign +:+ (text +:+ post)).
    rewrite lower_kelvin, lower_cons_ascii by exact Hdasc.
    apply same_letter_lower in Hd. rewrite Hd. cbn [String.prefix].
    destruct (Ascii.ascii_dec (Py.lower_ascii "k") (Py.lower_ascii "k")) as [_|Hne];
      [exact (IH Hp)|destruct Hne; reflexivity].
Qed.

(** A text of ASCII found in the lowered message is found at the head of
    the lowered rest of the message, from some place on. *)
Lemma contains_lower_tail (lp msg : string) :
  (∀ c rest, lp = String c rest → is_ascii c = true) →
  Py.contains lp (Py.lower msg) = true →
  ∃ pre t, msg = pre +:+ t ∧ String.prefix lp (Py.lower t) = true.
Proof.
  intros Hlp.
  assert (Hbyte : ∀ b rest, is_ascii b = false → String.prefix lp (String b rest) = true →
                  lp = "").
  { intros b rest Hb H. destruct lp as [|c lp']; [reflexivity|].
    cbn [String.prefix] in H. destruct (Ascii.ascii_dec c b) as [->|]; [|discriminate H].
    rewrite (Hlp b lp' eq_refl) in Hb. discriminate Hb. }
  assert (Hnil : lp = "" → ∃ pre t, msg = pre +:+ t ∧ String.prefix lp (Py.lower t) = true).
  { intros ->. exists "", msg. split; [reflexivity|]. destruct (Py.lower msg); reflexivity. }
  remember (String.length msg) as n eqn:Hn.
  revert msg Hn Hnil. induction n as [n IH] using lt_wf_ind. intros msg Hn Hnil H.
  assert (Hrec : ∀ skipped rest,
            msg = skipped +:+ rest → skipped ≠ "" →
            Py.contains lp (Py.lower rest) = true →
            ∃ pre t, msg = pre +:+ t ∧ String.prefix lp (Py.lower t) = true).
  { intros skipped rest -> Hne Hc.
    destruct (IH (String.length rest)) with (msg := rest) as (pre & t & -> & Ht);
      [|reflexivity| |exact Hc|].
    - subst n. rewrite length_append. destruct skipped; [destruct Hne; reflexivity|simpl; lia].
    - intros ->. exists "", rest. split; [reflexivity|]. destruct (Py.lower rest); reflexivity.
    - exists (skipped +:+ pre), t. split; [|exact Ht]. rewrite append_assoc. reflexivity. }
  destruct msg as [|a [|b s2]].
  - exists "", "". split; [reflexivity|]. cbn [Py.lower Py.contains] in H.
    rewrite orb_false_r in H. exact H.
  - cbn [Py.lower Py.contains] in H. apply orb_true_iff in H as [H|H].
    + exists "", (String a ""). split; [reflexivity|exact H].
    + rewrite orb_false_r in H. apply Hnil. destruct lp; [reflexivity|discriminate H].
  - cbn [Py.lower] in H. destruct (Py.is_dotted_capital_i a b) eqn:Hi.
    + cbn [Py.contains] in H. apply orb_true_iff in H as [H|H].
      { exists "", (String a (String b s2)). split; [reflexivity|].
        cbn [Py.lower]. rewrite Hi. exact H. }
      apply orb_true_iff in H as [H|H]; [apply Hnil; eapply Hbyte, H; reflexivity|].
      apply orb_true_iff in H as [H|H]; [apply Hnil; eapply Hbyte, H; reflexivity|].
      apply (Hrec (String a (String b "")) s2); [reflexivity|discriminate|exact H].
    + destruct s2 as [|c s3].
      * cbn [Py.contains] in H. apply orb_true_iff in H as [H|H].
        { exists "", (String a (String b "")). split; [reflexivity|].
          cbn [Py.lower]. rewrite Hi. exact H. }
        apply (Hrec (String a "") (String b "")); [reflexivity|discriminate|exact H].
      * destruct (Py.is_kelvin_sign a b c) eqn:Hk.
        -- cbn [Py.contains] in H. apply orb_true_iff in H as [H|H].
           { exists "", (String a (String b (String c s3))). split; [reflexivity|].
             cbn [Py.lower]. rewrite Hi, Hk. exact H. }
           apply (Hrec (String a (String b (String c ""))) s3);
             [reflexivity|discriminate|exact H].
        -- cbn [Py.contains] in H. apply orb_true_iff in H as [H|H].
           { exists "", (String a (String b (String c s3))). split; [reflexivity|].
             cbn [Py.lower]. rewrite Hi, Hk. exact H. }
           apply (Hrec (String a "") (String b (String c s3)));
             [reflexivity|discriminate|exact H].
Qed.

Lemma kelvin_sign_bytes (a b c : ascii) (s : string) :
  Py.is_kelvin_sign a b c = true → String a (String b (String c s)) = Py.kelvin_sign +:+ s.
Proof.
  unfold Py.is_kelvin_sign. intros H.
  apply andb_prop in H as [H Hc]. apply andb_prop in H as [Ha Hb].
  apply Ascii.eqb_eq in Ha, Hb, Hc. subst. reflexivity.
Qed.

(** The lowered pattern at the head of the lowered text comes from a
    piece at the head of the text that is the pattern up to case. *)
Lemma prefix_lower_same (pattern t : string) :
  ascii_text pattern = true →
  not_ending_in_i pattern = true →
  String.prefix (Py.lower pattern) (Py.lower t) = true →
  ∃ mid post, t = mid +:+ post ∧ same_ignoring_case mid pattern.
Proof.
  revert t. induction pattern as [|d pattern IH]; intros t Hp Hi H.
  - exists "", t. split; [reflexivity|constructor].
  - cbn [ascii_text] in Hp. apply andb_prop in Hp as [Hd Hp].
    rewrite lower_cons_ascii in H by exact Hd.
    assert (Hi' : not_ending_in_i pattern = true).
    { destruct pattern; [reflexivity|exact Hi]. }
    assert (Hstep : ∀ a rest,
              Py.lower t = String (Py.lower_ascii a) (Py.lower rest) →
              t = String a rest →
              ∃ mid post, t = mid +:+ post ∧ same_ignoring_case mid (String d pattern)).
    { intros a rest Hl ->. rewrite Hl in H. cbn [String.prefix] in H.
      destruct (Ascii.ascii_dec (Py.lower_ascii d) (Py.lower_ascii a)) as [E|]; [|discriminate H].
      destruct (IH rest Hp Hi' H) as (mid & post & -> & Hmid).
      exists (String a mid), post. split; [reflexivity|].
      constructor; [apply same_letter_lower; symmetry; exact E|exact Hmid]. }
    destruct t as [|a [|b s2]].
    + discriminate H.
    + apply (Hstep a ""); reflexivity.
    + destruct (Py.is_dotted_capital_i a b) eqn:Hdot.
      * exfalso. cbn [Py.lower] in H. rewrite Hdot in H. cbn [String.prefix] in H.
        destruct (Ascii.ascii_dec (Py.lower_ascii d) "i") as [E|]; [|discriminate H].
        destruct pattern as [|d' pattern].
        -- cbn [not_ending_in_i] in Hi. rewrite E in Hi. discriminate Hi.
        -- cbn [ascii_text] in Hp. apply andb_prop in Hp as [Hd' _].
           rewrite lower_cons_ascii in H by exact Hd'. cbn [String.prefix] in H.
           destruct (Ascii.ascii_dec (Py.lower_ascii d') "204") as [E'|]; [|discriminate H].
           rewrite <- lower_ascii_is_ascii, E' in Hd'. discriminate Hd'.
      * destruct s2 as [|c s3].
        -- apply (Hstep a (String b "")); [|reflexivity]. cbn [Py.lower]. rewrite Hdot.
           reflexivity.
        -- destruct (Py.is_kelvin_sign a b c) eqn:Hk.
           ++ cbn [Py.lower] in H. rewrite Hdot, Hk in H. cbn [String.prefix] in H.
              destruct (Ascii.ascii_dec (Py.lower_ascii d) "k") as [E|]; [|discriminate H].
              destruct (IH s3 Hp Hi' H) as (mid & post & -> & Hmid).
              exists (Py.kelvin_sign +:+ mid), post.
              split; [rewrite (kelvin_sign_bytes _ _ _ _ Hk); reflexivity|].
              apply same_kelvin; [apply same_letter_lower; exact E|exact Hmid].
           ++ apply (Hstep a (String b (String c s3))); [|reflexivity].
              cbn [Py.lower]. rewrite Hdot, Hk. reflexivity.
Qed.

Lemma lower_unfold (a b : ascii) (s2 : string) :
  Py.lower (String a (String b s2)) =
  if Py.is_dotted_capital_i a b
  then String "i" (String "204" (String "135" (Py.lower s2)))
  else
    match s2 with
    | EmptyString => String (Py.lower_ascii a) (Py.lower (String b s2))
    | String c s3 =>
        if Py.is_kelvin_sign a b c then String "k" (Py.lower s3)
        else String (Py.lower_ascii a) (Py.lower (String b s2))
    end.
Proof. destruct s2; reflexivity. Qed.

Lemma contains_cons (lp : string) (c : ascii) (s : string) :
  Py.contains lp s = true → Py.contains lp (String c s) = true.
Proof. intros H. cbn [Py.contains]. rewrite H. apply orb_true_r. Qed.

(** What is found at the head of the lowered rest of the message is found
    in the lowered message, when the rest does not begin inside a
    character. *)
Lemma lower_tail_contains (lp pre t : string) :
  lp ≠ "" →
  (∀ c rest, t = String c rest → c ≠ "132"%char ∧ c ≠ "170"%char ∧ c ≠ "176"%char) →
  String.prefix lp (Py.lower t) = true →
  Py.contains lp (Py.lower (pre +:+ t)) = true.
Proof.
  intros Hne Hclean Ht.
  assert (Hhead : ∀ s, String.prefix lp s = true → Py.contains lp s = true).
  { intros s H. destruct s; cbn [Py.contains]; rewrite H; reflexivity. }
  destruct t as [|c0 t'].
  { destruct lp; [destruct Hne; reflexivity|discriminate Ht]. }
  destruct (Hclean c0 t' eq_refl) as (H132 & H170 & H176).
  remember (String.length pre) as n eqn:Hn.
  revert pre Hn. induction n as [n IH] using lt_wf_ind. intros pre Hn.
  destruct pre as [|a [|b p2]].
  - apply Hhead. exact Ht.
  - change (String a "" +:+ String c0 t') with (String a (String c0 t')).
    assert (Hl : Py.lower (String a (String c0 t')) =
                 String (Py.lower_ascii a) (Py.lower (String c0 t'))).
    { cbn [Py.lower]. unfold Py.is_dotted_capital_i, Py.is_kelvin_sign.
      replace (Ascii.eqb c0 "176") with false by (symmetry; apply Ascii.eqb_neq; exact H176).
      replace (Ascii.eqb c0 "132") with false by (symmetry; apply Ascii.eqb_neq; exact H132).
      rewrite !andb_false_r. destruct t'; reflexivity. }
    rewrite Hl. apply contains_cons, Hhead, Ht.
  - change (String a (String b p2) +:+ String c0 t')
      with (String a (String b (p2 +:+ String c0 t'))).
    rewrite lower_unfold. destruct (Py.is_dotted_capital_i a b) eqn:Hdot.
    + do 3 apply contains_cons. apply (IH (String.length p2)); [subst n; simpl; lia|reflexivity].
    + destruct p2 as [|c p3].
      * change ("" +:+ String c0 t') with (String c0 t'). cbv iota.
        assert (Hk : Py.is_kelvin_sign a b c0 = false).
        { unfold Py.is_kelvin_sign.
          replace (Ascii.eqb c0 "170") with false by (symmetry; apply Ascii.eqb_neq; exact H170).
          apply andb_false_r. }
        rewrite Hk. apply contains_cons.
        apply (IH 1%nat (ltac:(subst n; simpl; lia)) (String b "") eq_refl).
      * change (String c p3 +:+ String c0 t') with (String c (p3 +:+ String c0 t')). cbv iota.
        destruct (Py.is_kelvin_sign a b c).
        -- apply contains_cons.
           apply (IH (String.length p3)); [subst n; simpl; lia|reflexivity].
        -- apply contains_cons.
           apply (IH (String.length (String b (String c p3)))
                    (ltac:(subst n; simpl; lia)) (String b (String c p3)) eq_refl).
Qed.

(** The substring test on the lowered texts is the case-insensitive match
    of the specification, for a pattern of ASCII that does not end in the
    letter i (after which the lower-case form of U+0130 could go on). *)
Lemma contains_lower_spec (pattern msg : string) :
  pattern ≠ "" →
  ascii_text pattern = true →
  not_ending_in_i pattern = true →
  Py.contains (Py.lower pattern) (Py.lower msg) = true ↔ occurs_ignoring_case pattern msg.
Proof.
  intros Hne Hp Hi. unfold occurs_ignoring_case. split.
  - intros H. apply contains_lower_tail in H as (pre & t & -> & Ht).
    + apply prefix_lower_same in Ht as (mid & post & -> & Hmid); [|exact Hp|exact Hi].
      exists pre, mid, post. auto.
    + intros c rest Hl. destruct pattern as [|d pattern]; [destruct Hne; reflexivity|].
      cbn [ascii_text] in Hp. apply andb_prop in Hp as [Hd _].
      rewrite lower_cons_ascii in Hl by exact Hd. injection Hl as <- _.
      rewrite lower_ascii_is_ascii. exact Hd.
  - intros (pre & mid & post & -> & Hmid).
    apply lower_tail_contains.
    + destruct pattern as [|d pattern]; [destruct Hne; reflexivity|].
      cbn [ascii_text] in Hp. apply andb_prop in Hp as [Hd _].
      rewrite lower_cons_ascii by exact Hd. discriminate.
    + intros c rest Hc.
      destruct Hmid as [|c' d text pattern Hcd _|d text pattern _ _].
      * destruct Hne; reflexivity.
      * cbn [ascii_text] in Hp. apply andb_prop in Hp as [Hd _].
        simpl in Hc. injection Hc as <- _.
        apply same_letter_lower in Hcd.
        assert (Hc' : is_ascii c' = true)
          by (rewrite <- lower_ascii_is_ascii, Hcd, lower_ascii_is_ascii; exact Hd).
        repeat split; intros ->; discriminate Hc'.
      * simpl in Hc. injection Hc as <- _. repeat split; discriminate.
    + apply same_ignoring_case_prefix; assumption.
Qed.

Lemma retryable_against_spec (patterns : list string) (error_lower : string) :
  retryable_against patterns error_lower = false ↔
  ∃ pattern, In pattern patterns ∧ Py.contains (Py.lower pattern) error_lower = true.
Proof.
  induction patterns as [|p patterns IH]; simpl.
  - split; [discriminate | intros (? & [] & _)].
  - destruct (Py.contains (Py.lower p) error_lower) eqn:E.
    + split; [intros _; exists p; auto | reflexivity].
    + rewrite IH. split.
      * intros (q & Hin & Hq). exists q. auto.
      * intros (q & [<-|Hin] & Hq); [congruence | exists q; auto].
Qed.

(** The patterns of the classifier are texts of ASCII, and none of them
    ends in the letter i. *)
Lemma NON_RETRYABLE_ERRORS_plain (pattern : string) :
  In pattern NON_RETRYABLE_ERRORS →
  pattern ≠ "" ∧ ascii_text pattern = true ∧ not_ending_in_i pattern = true.
Proof.
  unfold NON_RETRYABLE_ERRORS. intros Hin. simpl in Hin.
  repeat (destruct Hin as [<-|Hin]; [split; [discriminate|split; vm_compute; reflexivity]|]).
  destruct Hin.
Qed.

Lemma _is_retryable_error_spec (msg : string) :
  _is_retryable_error msg = false ↔
  ∃ pattern, In pattern NON_RETRYABLE_ERRORS ∧ occurs_ignoring_case pattern msg.
Proof.
  unfold _is_retryable_error. rewrite retryable_against_spec.
  split; intros (p & Hin & Hp); exists p; (split; [exact Hin|]);
    destruct (NON_RETRYABLE_ERRORS_plain p Hin) as (Hne & Hascii & Hi);
    apply (contains_lower_spec p msg Hne Hascii Hi); exact Hp.
Qed.

End Classifier.

(** ** The job poller *)

Section Poller.
Context {W : Type} `{GAE : GAEConnection W}.
Implicit Types s : state W.

Lemma polled_app (a b : list event) : polled (a ++ b) = polled a ++ polled b.
Proof. apply omap_app. Qed.







End Poller.

(** ** The run, read from its trace *)

Section Summary.
Context {W : Type} `{GAE : GAEConnection W}.
Implicit Types s : state W.

(** What a run that returns has done, [run] being what it added to the
    trace, [s1] the state the loop started in and [s2] the state it left. *)
Lemma run_analysis_summary fuel config s r s' :
  run_analysis fuel config s = (Ok r, s') →
  ∃ s1 s2 evs run t,
    State.trace s' = State.trace s ++ run
    ∧ deploy_attempts run = deploy_attempts evs
    ∧ failures run = failures evs
    ∧ (has_graph_source config = false → List.filter is_request run = [])
    ∧ State.result s1 = Result.new config t
    ∧ loop_summary config 0 s1 s2 evs
    ∧ same_but_status (State.result s2) r
    ∧ Result.status r = Result.status (State.result s2).
Proof.
  intros H. apply run_analysis_spec in H
    as (s1 & s2 & pre & evs & post & t & Hres & Ht & (P1 & P2 & P3 & P4) & (C1 & C2 & C3)
        & Hsum & Hsrc & Hsame & Hst & _).
  exists s1, s2, evs, (pre ++ evs ++ post), t.
  split; [exact Ht|].
  rewrite !deploy_attempts_app, !failures_app, !requests_app, P1, P2, P4, C1, C2, C3.
  simpl. rewrite !app_nil_r, Nat.add_0_r.
  repeat (split; [first [reflexivity | assumption]|]). assumption.
Qed.

Lemma snoc_eq_middle (P : string → bool) (fs0 : list string) (m0 : string)
    (fs : list string) (m : string) (rest : list string) :
  forallb P fs0 = true → P m = false →
  fs0 ++ [m0] = fs ++ m :: rest →
  fs = fs0 ∧ m = m0 ∧ rest = [].
Proof.
  revert fs. induction fs0 as [|x fs0 IH]; intros fs Hall Hm Heq; simpl in *.
  - destruct fs as [|y fs]; simpl in Heq.
    + injection Heq as -> <-. auto.
    + injection Heq as _ Heq. destruct fs; discriminate Heq.
  - apply andb_prop in Hall as [Hx Hall].
    destruct fs as [|y fs]; simpl in Heq; injection Heq as Hxy Heq.
    + congruence.
    + destruct (IH fs Hall Hm Heq) as (-> & -> & ->). subst. auto.
Qed.

End Summary.

(** ** The properties of the specification *)

(** C1 (cleanup guarantee).  Whenever [run_analysis] returns a result
    whose engine identifier is set (truthy, as the source tests it) and
    the config asks for auto-cleanup, the last call it made on the
    backend is [delete_engine] on that identifier, whatever way the retry
    loop was left; that call may have raised ([how] is then [Raised]),
    and the result is returned all the same.  An exception leaves
    [run_analysis] only from the checks that precede the retry loop; and
    once the loop is left, [run_analysis] returns its result as soon as
    the final [delete_engine] comes back, by returning or by raising. *)
Theorem run_analysis_always_cleans_up {W : Type} `{GAE : GAEConnection W} :
  (∀ (fuel : nat) (config : AnalysisConfig) (s : state W) o s',
     run_analysis fuel config s = (o, s') →
     match o with
     | Ok r =>
         Py.truthy (Result.engine_id r) = true →
         Config.auto_cleanup config = true →
         ∃ before how tail,
           State.trace s' =
             State.trace s ++ before ++ EvCall (CDeleteEngine (Result.engine_id r)) how :: tail
           ∧ forallb (λ e, negb (is_call e)) tail = true
           ∧ how ≠ Hung
     | Raise e => preflight config s = (Raise e, s')
     | Diverge => True
     end)
  ∧ (∀ (fuel : nat) (config : AnalysisConfig) (s s2 : state W),
       retry_loop (Z.to_nat (max_attempts_of config)) fuel config (max_attempts_of config) 0 s
       = (Ok tt, s2) →
       fst (delete_engine (Result.engine_id (State.result s2)) (State.world s2)) ≠ Diverge →
       ∃ r s', run_attempts fuel config s = (Ok r, s')).
Proof.
  split.
  - intros fuel config s o s' H.
    apply run_analysis_spec in H. destruct o as [r|e|]; [|exact H|exact I].
    destruct H as (s1 & s2 & pre & evs & post & t & _ & Ht & _ & _ & _ & _ & _ & _ & Hdel & _).
    intros Hid Hauto. destruct (Hdel Hid Hauto) as (how & tail & -> & Htail & Hhow).
    exists (pre ++ evs ++ [EvStatus CLEANING_UP]), how, tail.
    split; [|split; assumption].
    rewrite Ht, <- !app_assoc. reflexivity.
  - intros fuel config s s2 Hloop Hdelete.
    unfold run_attempts, bind at 1. rewrite Hloop. unfold bind at 1.
    destruct (final_cleanup_returns config s2 Hdelete) as (s3 & ->).
    eexists. eexists. reflexivity.
Qed.

(** A run whose final [delete_engine] raises: the result comes back, and
    the failed call is the last one on the backend. *)
Lemma run_analysis_always_cleans_up_witness :
  let out := run_analysis 5 (Mock.config_of 3) (Mock.orchestrator Mock.world_cleanup_fails) in
  ∃ r,
    fst out = Ok r
    ∧ Result.status r = COMPLETED
    ∧ deletions (State.trace (snd out)) =
        [(VStr "engine123", Raised (mk_exn OtherException "engine not found"))]
    ∧ ∃ before how tail,
        State.trace (snd out) =
          [] ++ before ++ EvCall (CDeleteEngine (Result.engine_id r)) how :: tail
        ∧ forallb (λ e, negb (is_call e)) tail = true
        ∧ how ≠ Hung.
Proof.
  cbv zeta.
  destruct (run_analysis_always_cleans_up (W := Mock.world)) as [Hrun _].
  pose proof (Hrun 5%nat (Mock.config_of 3)
                (Mock.orchestrator Mock.world_cleanup_fails) _ _ (surjective_pairing _)) as H.
  destruct (fst (run_analysis 5 (Mock.config_of 3)
                   (Mock.orchestrator Mock.world_cleanup_fails))) as [r|e|] eqn:F;
    [|vm_compute in F; discriminate F|vm_compute in F; discriminate F].
  exists r. split; [reflexivity|].
  vm_compute in F. injection F as <-.
  split; [reflexivity|]. split; [vm_compute; reflexivity|].
  apply H; reflexivity.
Defined.

(** C9 (transient CLEANING_UP).  [_cleanup_engine] on a result whose
    status is COMPLETED or FAILED sets the status to CLEANING_UP, calls
    [delete_engine], and sets the status back to what it was, whether the
    call returned or raised.  The status is CLEANING_UP while the call is
    made: a call that does not come back leaves the result in
    CLEANING_UP, after the events of the assignment and of the call; and
    a result whose status was not COMPLETED or FAILED is left in
    CLEANING_UP when the call has returned or raised, since nothing puts
    a status back.  No result [run_analysis] returns has the status
    CLEANING_UP. *)
Theorem cleanup_restores_terminal_status {W : Type} `{GAE : GAEConnection W} :
  (∀ (s : state W) o s',
     _cleanup_engine s = (o, s') →
     is_terminal (Result.status (State.result s)) = true →
     o ≠ Diverge →
     ∃ how,
       State.trace s' =
         State.trace s ++
         [EvStatus CLEANING_UP;
          EvCall (CDeleteEngine (Result.engine_id (State.result s))) how;
          EvStatus (Result.status (State.result s))]
       ∧ (o = Ok tt ∨ ∃ e, o = Raise e ∧ how = Raised e)
       ∧ Result.status (State.result s') = Result.status (State.result s))
  ∧ (∀ (s : state W) s',
       _cleanup_engine s = (Diverge, s') →
       Result.status (State.result s') = CLEANING_UP
       ∧ State.trace s' =
           State.trace s ++
           [EvStatus CLEANING_UP;
            EvCall (CDeleteEngine (Result.engine_id (State.result s))) Hung])
  ∧ (∀ (s : state W) o s',
       _cleanup_engine s = (o, s') →
       is_terminal (Result.status (State.result s)) = false →
       Result.status (State.result s') = CLEANING_UP)
  ∧ (∀ fuel config (s : state W) r s',
       run_analysis fuel config s = (Ok r, s') →
       Result.status r ≠ CLEANING_UP).
Proof.
  split; [|split; [|split]].
  - intros s o s' H Hterm Hdiv.
    apply _cleanup_engine_spec in H as (how & Ht & Ho & Hst & _).
    rewrite Hterm in *. exists how. destruct how as [v|e|].
    + repeat split; [exact Ht | left; exact Ho | exact Hst].
    + repeat split; [exact Ht | right; exists e; auto | exact Hst].
    + contradiction.
  - intros s s' H.
    apply _cleanup_engine_spec in H as (how & Ht & Ho & Hst & _).
    destruct how as [v|e|]; [discriminate Ho|discriminate Ho|].
    split; [exact Hst|]. rewrite Ht.
    destruct (is_terminal (Result.status (State.result s))); reflexivity.
  - intros s o s' H Hterm.
    apply _cleanup_engine_spec in H as (how & _ & _ & Hst & _).
    rewrite Hterm in Hst. rewrite Hst. destruct how; reflexivity.
  - intros fuel config s r s' H.
    apply run_analysis_summary in H
      as (s1 & s2 & evs & run & t & _ & _ & _ & _ & Hres & Hsum & _ & ->).
    destruct Hsum as [_ _ ->|? ? _ _ _ -> |? ? _ _ _ ->]; [|discriminate..].
    rewrite Hres. discriminate.
Qed.

(** A cleanup that raises on a FAILED result: the status is FAILED again
    afterwards.  The same cleanup on a backend whose [delete_engine] does
    not come back: the result stays in CLEANING_UP. *)
Lemma cleanup_restores_terminal_status_witness :
  let out := _cleanup_engine Mock.failed_with_engine in
  let stuck := _cleanup_engine (GAE := Hanging.connection) Mock.failed_with_engine in
  fst out = Raise (mk_exn OtherException "engine not found")
  ∧ Result.status (State.result (snd out)) = FAILED
  ∧ (∃ how,
       State.trace (snd out) =
         [] ++ [EvStatus CLEANING_UP; EvCall (CDeleteEngine (VStr "engine123")) how;
                EvStatus FAILED]
       ∧ (fst out = Ok tt ∨ ∃ e, fst out = Raise e ∧ how = Raised e)
       ∧ Result.status (State.result (snd out)) = FAILED)
  ∧ fst stuck = Diverge
  ∧ Result.status (State.result (snd stuck)) = CLEANING_UP
  ∧ State.trace (snd stuck) =
      [] ++ [EvStatus CLEANING_UP; EvCall (CDeleteEngine (VStr "engine123")) Hung].
Proof.
  cbv zeta. split; [vm_compute; reflexivity|]. split; [vm_compute; reflexivity|].
  split.
  - destruct (cleanup_restores_terminal_status (W := Mock.world)) as [Hcleanup _].
    apply (Hcleanup Mock.failed_with_engine _ _ (surjective_pairing _)).
    + reflexivity.
    + vm_compute. discriminate.
  - split; [vm_compute; reflexivity|].
    destruct (cleanup_restores_terminal_status (W := Mock.world) (GAE := Hanging.connection))
      as (_ & Hstuck & _).
    apply (Hstuck Mock.failed_with_engine).
    vm_compute. reflexivity.
Defined.

(** C10 (a success keeps the last error message).  With [run] the
    events of a run that returns: the result's [error_message] is the
    message of the last failed pass, whether or not a later pass
    succeeded; when some pass did not fail (the run made more passes,
    one deploy each, than it recorded failures) the result is COMPLETED,
    and every failure before that success was classified retryable. *)
Theorem success_keeps_last_error_message {W : Type} `{GAE : GAEConnection W}
    (fuel : nat) (config : AnalysisConfig) (s : state W) r s' :
  run_analysis fuel config s = (Ok r, s') →
  ∃ run,
    State.trace s' = State.trace s ++ run
    ∧ (∀ fs m, failures run = fs ++ [m] → Result.error_message r = Some m)
    ∧ ((length (failures run) < deploy_attempts run)%nat →
       Result.status r = COMPLETED
       ∧ forallb _is_retryable_error (failures run) = true).
Proof.
  intros H.
  apply run_analysis_summary in H
    as (s1 & s2 & evs & run & t & Ht & Hd & Hf & _ & Hres & Hsum & Hsame & Hst).
  exists run. split; [exact Ht|]. rewrite Hf, Hd, Hst.
  apply same_but_status_fields in Hsame as (_ & _ & _ & -> & _).
  destruct Hsum as [_ -> _
                   | fs0 d Hfs0 _ Hall Hdone _ _ _ Herr _ _ _
                   | fs0 m0 Hfs0 Hdep _ _ _ _ _ Herr _ _].
  - split; [intros fs m Hfs; destruct fs; discriminate Hfs|].
    unfold deploy_attempts. simpl. lia.
  - split.
    + intros fs m Hfs. rewrite Hfs in Hfs0. subst fs0.
      rewrite Herr, last_snoc. reflexivity.
    + intros _. rewrite Hfs0. auto.
  - split.
    + intros fs m Hfs. rewrite Hfs0 in Hfs.
      apply app_inj_tail in Hfs as [_ ->]. exact Herr.
    + rewrite Hfs0, Hdep, length_app. simpl. lia.
Qed.

(** Scenario B of the specification: the first deploy fails with a
    transient error, the second pass succeeds. *)
Lemma success_keeps_last_error_message_witness :
  let out := run_analysis 5 (Mock.config_of 1) (Mock.orchestrator Mock.world_transient_then_ok) in
  ∃ r,
    fst out = Ok r
    ∧ Result.status r = COMPLETED
    ∧ Result.retry_count r = 1
    ∧ Result.error_message r = Some "Transient connection error"
    ∧ ∃ run,
        State.trace (snd out) = [] ++ run
        ∧ (∀ fs m, failures run = fs ++ [m] → Result.error_message r = Some m)
        ∧ ((length (failures run) < deploy_attempts run)%nat →
           Result.status r = COMPLETED
           ∧ forallb _is_retryable_error (failures run) = true).
Proof.
  cbv zeta.
  destruct (fst (run_analysis 5 (Mock.config_of 1)
                   (Mock.orchestrator Mock.world_transient_then_ok))) as [r|e|] eqn:F;
    [|vm_compute in F; discriminate F|vm_compute in F; discriminate F].
  exists r. split; [reflexivity|].
  split; [vm_compute in F; injection F as <-; reflexivity|].
  split; [vm_compute in F; injection F as <-; reflexivity|].
  split; [vm_compute in F; injection F as <-; reflexivity|].
  apply (success_keeps_last_error_message 5 (Mock.config_of 1)
           (Mock.orchestrator Mock.world_transient_then_ok) r _).
  rewrite <- F. apply surjective_pairing.
Defined.

(** C6, as the code has it (cost estimate).  A run that returns COMPLETED
    records a duration [d] and, as [estimated_cost_usd], [(d / 60 / 60) *
    rate] for the hourly rate of the config's engine size; when the table
    has no rate for that size the field is left unset ([None]), not 0. *)
Theorem completed_run_cost {W : Type} `{GAE : GAEConnection W}
    (fuel : nat) (config : AnalysisConfig) (s : state W) r s' :
  run_analysis fuel config s = (Ok r, s') →
  Result.status r = COMPLETED →
  ∃ d,
    Result.duration_seconds r = Some d
    ∧ Result.estimated_cost_usd r =
        match ENGINE_COSTS !! Config.engine_size config with
        | Some rate =>
            Some (PrimFloat.mul (PrimFloat.div (PrimFloat.div d 60%float) 60%float) rate)
        | None => None
        end.
Proof.
  intros H Hdone.
  apply run_analysis_summary in H
    as (s1 & s2 & evs & run & t & _ & _ & _ & _ & Hres & Hsum & Hsame & Hst).
  apply same_but_status_fields in Hsame as (_ & _ & _ & _ & _ & -> & ->).
  destruct Hsum as [_ _ ->
                   | fs d _ _ _ _ _ _ _ _ Hdur Hcost _
                   | fs m _ _ _ Hfailed _ _ _ _ _ _].
  - rewrite Hst, Hres in Hdone. discriminate Hdone.
  - exists d. split; [exact Hdur|]. rewrite Hcost, Hres. reflexivity.
  - congruence.
Qed.

(** Scenario A of the specification on an e16 engine: four seconds on
    the clock, at 0.40 an hour. *)
Lemma completed_run_cost_witness :
  let out := run_analysis 5 (Mock.config_of 3) (Mock.orchestrator Mock.world_ok) in
  ∃ r,
    fst out = Ok r
    ∧ Result.status r = COMPLETED
    ∧ ∃ d,
        Result.duration_seconds r = Some d
        ∧ Result.estimated_cost_usd r =
            match ENGINE_COSTS !! Config.engine_size (Mock.config_of 3) with
            | Some rate =>
                Some (PrimFloat.mul (PrimFloat.div (PrimFloat.div d 60%float) 60%float) rate)
            | None => None
            end.
Proof.
  cbv zeta.
  destruct (fst (run_analysis 5 (Mock.config_of 3) (Mock.orchestrator Mock.world_ok)))
    as [r|e|] eqn:F; [|vm_compute in F; discriminate F|vm_compute in F; discriminate F].
  exists r. split; [reflexivity|].
  assert (Hst : Result.status r = COMPLETED) by (vm_compute in F; injection F as <-; reflexivity).
  split; [exact Hst|].
  apply (completed_run_cost 5 (Mock.config_of 3) (Mock.orchestrator Mock.world_ok) r
           (snd (run_analysis 5 (Mock.config_of 3) (Mock.orchestrator Mock.world_ok)))).
  - rewrite <- F. apply surjective_pairing.
  - exact Hst.
Defined.

(** C6 as stated fails on an engine size without a rate: the run
    completes and [estimated_cost_usd] is [None], not 0. *)
Lemma completed_run_cost_counterexample :
  let out := run_analysis 5 Mock.config_unlisted_size (Mock.orchestrator Mock.world_ok) in
  ENGINE_COSTS !! Config.engine_size Mock.config_unlisted_size = None
  ∧ ∃ r,
      fst out = Ok r
      ∧ Result.status r = COMPLETED
      ∧ Result.estimated_cost_usd r = None
      ∧ Result.estimated_cost_usd r ≠ Some 0%float.
Proof.
  cbv zeta. split; [vm_compute; reflexivity|].
  eexists. split; [vm_compute; reflexivity|].
  split; [reflexivity|]. split; [reflexivity|]. discriminate.
Qed.

(** C5, as the code has it (number of deploy attempts).  With [run] the
    events of a run that returns: without retries [deploy_engine] is
    called exactly once; with retries it is called at most
    [max_retries + 1] times, and when every failure is retryable it is
    called once per failed pass and once more for the pass that
    succeeds, that is [min (failures + 1) (max_retries + 1)] times with
    [failures] the number of failures before the success, and
    [max_retries + 1] times when no pass succeeds. *)
Theorem deploy_attempts_of_a_run {W : Type} `{GAE : GAEConnection W}
    (fuel : nat) (config : AnalysisConfig) (s : state W) r s' :
  run_analysis fuel config s = (Ok r, s') →
  ∃ run,
    State.trace s' = State.trace s ++ run
    ∧ (Config.retry_on_failure config = false → deploy_attempts run = 1%nat)
    ∧ (Config.retry_on_failure config = true →
       (deploy_attempts run ≤ Z.to_nat (Config.max_retries config + 1))%nat
       ∧ (forallb _is_retryable_error (failures run) = true →
          (Result.status r = COMPLETED →
           deploy_attempts run =
             Nat.min (S (length (failures run))) (Z.to_nat (Config.max_retries config + 1)))
          ∧ (Result.status r ≠ COMPLETED →
             deploy_attempts run = Z.to_nat (Config.max_retries config + 1)
             ∧ length (failures run) = deploy_attempts run))).
Proof.
  intros H.
  apply run_analysis_summary in H
    as (s1 & s2 & evs & run & t & Ht & Hd & Hf & _ & Hres & Hsum & _ & Hst).
  exists run. split; [exact Ht|]. rewrite Hd, Hf, Hst. clear Hd Hf Ht Hst.
  unfold max_attempts_of in Hsum.
  destruct Hsum as [Hguard -> ->
                   | fs d <- -> Hall Hdone Hbound Hne _ _ _ _ _
                   | fs m Hfs -> Hall Hfailed Hbound Hne _ _ _ Hlast].
  - unfold max_attempts_of in Hguard. split.
    + intros Hr. rewrite Hr in Hguard. discriminate Hguard.
    + intros Hr. rewrite Hr in Hguard. apply Z.ltb_ge in Hguard.
      split; [apply Nat.le_0_l|]. intros _. rewrite Hres. simpl. split; [discriminate|].
      intros _. split; [|reflexivity]. unfold deploy_attempts. simpl. lia.
  - unfold max_attempts_of in Hbound. split.
    + intros Hr. destruct (failures evs) as [|x l]; [reflexivity|].
      destruct Hne as [Hr' _]; [discriminate | congruence].
    + intros Hr. rewrite Hr in Hbound. split; [lia|]. intros _. split; [|congruence].
      intros _. symmetry. apply Nat.min_l. lia.
  - unfold max_attempts_of in Hbound. rewrite Hfs. split.
    + intros Hr. destruct fs as [|x l]; [reflexivity|].
      destruct Hne as [Hr' _]; [discriminate | congruence].
    + intros Hr. rewrite Hr in Hbound, Hlast. split; [lia|]. intros Hretryable.
      split; [congruence|]. intros _.
      rewrite forallb_app in Hretryable. apply andb_prop in Hretryable as [_ Hm].
      simpl in Hm. rewrite andb_true_r in Hm.
      destruct Hlast as [Hno|Hno]; [congruence|]. simpl in Hno. apply Z.ltb_ge in Hno.
      rewrite length_app. simpl. split; lia.
Qed.

(** Scenario B of the specification: one transient failure, then a
    success, with [max_retries = 1]: two deploy attempts. *)
Lemma deploy_attempts_of_a_run_witness :
  let out := run_analysis 5 (Mock.config_of 1) (Mock.orchestrator Mock.world_transient_then_ok) in
  ∃ r,
    fst out = Ok r
    ∧ deploy_attempts (State.trace (snd out)) = 2%nat
    ∧ ∃ run,
        State.trace (snd out) = [] ++ run
        ∧ (Config.retry_on_failure (Mock.config_of 1) = false → deploy_attempts run = 1%nat)
        ∧ (Config.retry_on_failure (Mock.config_of 1) = true →
           (deploy_attempts run ≤ Z.to_nat (Config.max_retries (Mock.config_of 1) + 1))%nat
           ∧ (forallb _is_retryable_error (failures run) = true →
              (Result.status r = COMPLETED →
               deploy_attempts run =
                 Nat.min (S (length (failures run)))
                   (Z.to_nat (Config.max_retries (Mock.config_of 1) + 1)))
              ∧ (Result.status r ≠ COMPLETED →
                 deploy_attempts run = Z.to_nat (Config.max_retries (Mock.config_of 1) + 1)
                 ∧ length (failures run) = deploy_attempts run))).
Proof.
  cbv zeta.
  destruct (fst (run_analysis 5 (Mock.config_of 1)
                   (Mock.orchestrator Mock.world_transient_then_ok))) as [r|e|] eqn:F;
    [|vm_compute in F; discriminate F|vm_compute in F; discriminate F].
  exists r. split; [reflexivity|]. split; [vm_compute; reflexivity|].
  apply (deploy_attempts_of_a_run 5 (Mock.config_of 1)
           (Mock.orchestrator Mock.world_transient_then_ok) r _).
  rewrite <- F. apply surjective_pairing.
Defined.

(** C5 as stated fails on scenario B: every failure is retryable, one
    pass fails before the success and [max_retries] is 1, and
    [deploy_engine] is called twice, not [min 1 (1 + 1)] times. *)
Lemma deploy_attempts_of_a_run_counterexample :
  let out := run_analysis 5 (Mock.config_of 1) (Mock.orchestrator Mock.world_transient_then_ok) in
  let run := State.trace (snd out) in
  Config.retry_on_failure (Mock.config_of 1) = true
  ∧ (∃ r, fst out = Ok r ∧ Result.status r = COMPLETED)
  ∧ failures run = ["Transient connection error"]
  ∧ forallb _is_retryable_error (failures run) = true
  ∧ deploy_attempts run = 2%nat
  ∧ deploy_attempts run ≠
      Nat.min (length (failures run)) (Z.to_nat (Config.max_retries (Mock.config_of 1) + 1)).
Proof.
  cbv zeta. split; [reflexivity|].
  split; [eexists; split; [vm_compute; reflexivity | reflexivity]|].
  split; [vm_compute; reflexivity|]. split; [vm_compute; reflexivity|].
  split; [vm_compute; reflexivity|]. vm_compute. discriminate.
Qed.

(** C4, as the code has it (non-retryable failures).  The classifier
    answers "not retryable" exactly on the messages in which one of the
    fixed patterns occurs up to case, and "retryable" on every other
    message.  Up to case is as [str.lower] has it: each letter in either
    case, and for the letter k also the Kelvin sign, whose lower-case
    form is k.  In a run that returns, a failure with a non-retryable
    message is the last failure of the run: the result is FAILED with
    that message, no further deploy is attempted, and [retry_count] is
    the number of failed passes before it (0, with a single deploy, when
    it is the first failure), whatever [max_retries] is. *)
Theorem non_retryable_failure_ends_the_loop {W : Type} `{GAE : GAEConnection W} :
  (∀ msg,
     ((∃ pattern, In pattern NON_RETRYABLE_ERRORS ∧ occurs_ignoring_case pattern msg) →
      _is_retryable_error msg = false)
     ∧ (¬ (∃ pattern, In pattern NON_RETRYABLE_ERRORS ∧ occurs_ignoring_case pattern msg) →
        _is_retryable_error msg = true))
  ∧ (∀ fuel config (s : state W) r s',
       run_analysis fuel config s = (Ok r, s') →
       ∃ run,
         State.trace s' = State.trace s ++ run
         ∧ ∀ fs m rest,
             failures run = fs ++ m :: rest →
             _is_retryable_error m = false →
             rest = []
             ∧ Result.status r = FAILED
             ∧ Result.error_message r = Some m
             ∧ Result.retry_count r = Z.of_nat (length fs)
             ∧ deploy_attempts run = S (length fs)).
Proof.
  split.
  - intros msg. split.
    + intros Hocc. apply _is_retryable_error_spec. exact Hocc.
    + intros Hnone. destruct (_is_retryable_error msg) eqn:E; [reflexivity|].
      apply _is_retryable_error_spec in E. contradiction.
  - intros fuel config s r s' H.
    apply run_analysis_summary in H
      as (s1 & s2 & evs & run & t & Ht & Hd & Hf & _ & Hres & Hsum & Hsame & Hst).
    exists run. split; [exact Ht|]. intros fs m rest Hfs Hm.
    rewrite Hf in Hfs. rewrite Hd, Hst.
    apply same_but_status_fields in Hsame as (_ & _ & _ & -> & -> & _).
    destruct Hsum as [_ -> _
                     | fs0 d Hfs0 _ Hall _ _ _ _ _ _ _ _
                     | fs0 m0 Hfs0 Hdep Hall Hfailed _ _ Hrc Herr _ _].
    + destruct fs; discriminate Hfs.
    + rewrite Hfs in Hfs0. subst fs0.
      rewrite forallb_app in Hall. apply andb_prop in Hall as [_ Hall]. simpl in Hall.
      rewrite Hm in Hall. discriminate Hall.
    + rewrite Hfs0 in Hfs.
      destruct (snoc_eq_middle _is_retryable_error fs0 m0 fs m rest Hall Hm Hfs)
        as (-> & -> & ->).
      repeat (split; [first [reflexivity | assumption]|]).
      split; [|exact Hdep].
      rewrite Hrc, Hres. simpl. destruct (length fs0); reflexivity.
Qed.

Ltac same_case :=
  repeat first
    [ apply same_empty
    | apply same_character; [apply same_letter_lower; reflexivity|]
    | match goal with
      | |- same_ignoring_case (String "226" (String "132" (String "170" ?t))) (String ?d ?p) =>
          change (same_ignoring_case (Py.kelvin_sign +:+ t) (String d p));
          apply same_kelvin; [apply same_letter_lower; reflexivity|]
      end ].

(** Scenario C of the specification: the first deploy fails with
    "Invalid configuration: missing API key" and [max_retries = 3].  The
    classifier on a pattern in another case, and on a pattern whose K is
    the Kelvin sign. *)
Lemma non_retryable_failure_ends_the_loop_witness :
  let out := run_analysis 5 (Mock.config_of 3)
               (Mock.orchestrator
                  (Mock.mk [Mock.failing "Invalid configuration: missing API key"] [] []
                     (Some (VStr "failed-engine")) 1000000 1000000)) in
  _is_retryable_error "Invalid configuration: missing API key" = false
  ∧ _is_retryable_error "deploy: INVALID Configuration" = false
  ∧ _is_retryable_error ("ARANGO_GRAPH_TO" +:+ Py.kelvin_sign +:+ "EN not set") = false
  ∧ ∃ r,
      fst out = Ok r
      ∧ Result.status r = FAILED
      ∧ Result.retry_count r = 0
      ∧ deploy_attempts (State.trace (snd out)) = 1%nat.
Proof.
  cbv zeta.
  destruct (non_retryable_failure_ends_the_loop (W := Mock.world)) as [Hclass Hrun].
  split; [|split; [|split]].
  - apply Hclass. exists "Invalid configuration". split; [simpl; auto 10|].
    exists "", "Invalid configuration", ": missing API key". split; [reflexivity|].
    same_case.
  - apply Hclass. exists "Invalid configuration". split; [simpl; auto 10|].
    exists "deploy: ", "INVALID Configuration", "". split; [reflexivity|].
    same_case.
  - apply Hclass. exists "ARANGO_GRAPH_TOKEN not set". split; [simpl; auto 10|].
    exists "", ("ARANGO_GRAPH_TO" +:+ Py.kelvin_sign +:+ "EN not set"), "".
    split; [reflexivity|].
    cbv [String.append Py.kelvin_sign]. same_case.
  - match goal with
    | |- context [run_analysis ?f ?c ?s0] =>
        destruct (fst (run_analysis f c s0)) as [r|e|] eqn:F;
          [|vm_compute in F; discriminate F|vm_compute in F; discriminate F];
        destruct (Hrun f c s0 r _ ltac:(rewrite <- F; apply surjective_pairing))
          as (run & Ht & Hlast)
    end.
    exists r. split; [reflexivity|].
    change (State.trace (Mock.orchestrator _) ++ run) with run in Ht.
    destruct (Hlast [] "Invalid configuration: missing API key" [])
      as (_ & Hst & _ & Hrc & Hd).
    + rewrite <- Ht. vm_compute. reflexivity.
    + vm_compute. reflexivity.
    + rewrite Ht. auto.
Defined.

(** C4 as stated fails when the non-retryable failure is not the first
    failure of the run: a transient failure, then "Invalid
    configuration: missing API key", leave [retry_count = 1] after two
    deploy attempts. *)
Lemma non_retryable_failure_ends_the_loop_counterexample :
  let out := run_analysis 5 (Mock.config_of 3)
               (Mock.orchestrator Mock.world_transient_then_invalid) in
  ∃ r,
    fst out = Ok r
    ∧ Result.status r = FAILED
    ∧ Result.error_message r = Some "Invalid configuration: missing API key"
    ∧ _is_retryable_error "Invalid configuration: missing API key" = false
    ∧ Result.retry_count r = 1
    ∧ deploy_attempts (State.trace (snd out)) = 2%nat
    ∧ ¬ (Result.retry_count r = 0 ∧ deploy_attempts (State.trace (snd out)) = 1%nat).
Proof.
  cbv zeta. eexists. split; [vm_compute; reflexivity|].
  split; [reflexivity|]. split; [reflexivity|]. split; [vm_compute; reflexivity|].
  split; [reflexivity|]. split; [vm_compute; reflexivity|].
  intros [Hrc _]. discriminate Hrc.
Qed.

(** C2, as the code has it (config without a graph source).  The
    validation is the one of [load_graph], and [run_analysis] reaches it
    after the deploy of the same pass: on a config whose vertex or edge
    collection list is empty, [_load_graph] raises the [ValueError]
    before any request is sent; a run that returns has sent no request
    at all, is never COMPLETED, has deployed once in every pass it made
    and failed in every one of them, and, when it makes a pass at all,
    is FAILED after at least one call of [deploy_engine].  Such a run
    does return once the checks before the loop have passed, as long as
    no call of [deploy_engine] or [delete_engine] hangs. *)
Theorem run_without_graph_source {W : Type} `{GAE : GAEConnection W} :
  (∀ fuel (s : state W),
     has_graph_source (Result.config (State.result s)) = false →
     _load_graph fuel s =
     (Raise (mk_exn ValueError
               "Must specify either graph_name or both vertex_collections and edge_collections"),
      put_status GRAPH_LOADING s))
  ∧ (∀ fuel config (s : state W) r s',
       has_graph_source config = false →
       run_analysis fuel config s = (Ok r, s') →
       ∃ run,
         State.trace s' = State.trace s ++ run
         ∧ List.filter is_request run = []
         ∧ Result.status r ≠ COMPLETED
         ∧ length (failures run) = deploy_attempts run
         ∧ (0 < max_attempts_of config →
            Result.status r = FAILED ∧ (1 ≤ deploy_attempts run)%nat))
  ∧ (∀ fuel config (s : state W),
       (∀ size_id type_id w, fst (deploy_engine size_id type_id w) ≠ Diverge) →
       (∀ id w, fst (delete_engine id w) ≠ Diverge) →
       has_graph_source config = false →
       fst (preflight config s) = Ok tt →
       ∃ r s', run_analysis fuel config s = (Ok r, s')).
Proof.
  split; [intros fuel s; apply _load_graph_without_source|].
  split; [|intros fuel config s; apply run_analysis_returns_without_source].
  intros fuel config s r s' Hsrc H.
  apply run_analysis_summary in H
    as (s1 & s2 & evs & run & t & Ht & Hd & Hf & Hreq & Hres & Hsum & _ & Hst).
  exists run. split; [exact Ht|]. split; [apply Hreq, Hsrc|].
  rewrite Hd, Hf, Hst. clear Hd Hf Hst Ht Hreq.
  destruct Hsum as [Hguard -> ->
                   | fs d _ _ _ _ _ _ _ _ _ _ Hhas
                   | fs m -> -> _ Hfailed _ _ _ _ _ _].
  - rewrite Hres. simpl. split; [discriminate|]. split; [reflexivity|].
    intros Hpos. apply Z.ltb_ge in Hguard. lia.
  - rewrite Hres in Hhas. simpl in Hhas. congruence.
  - rewrite Hfailed, length_app. simpl. split; [discriminate|]. split; [lia|].
    intros _. split; [reflexivity | lia].
Qed.

(** [AnalysisConfig(name="test_run")], no collections, the defaults for
    the rest: four deploys, all followed by the validation error.  The
    scripted backend never hangs, so the run is known to return. *)
Lemma run_without_graph_source_witness :
  let out := run_analysis 5 Mock.config_without_source (Mock.orchestrator Mock.world_ok) in
  (∃ r,
     fst out = Ok r
     ∧ ∃ run,
         State.trace (snd out) = [] ++ run
         ∧ List.filter is_request run = []
         ∧ Result.status r ≠ COMPLETED
         ∧ length (failures run) = deploy_attempts run
         ∧ (0 < max_attempts_of Mock.config_without_source →
            Result.status r = FAILED ∧ (1 ≤ deploy_attempts run)%nat))
  ∧ (∃ r s',
       run_analysis 5 Mock.config_without_source (Mock.orchestrator Mock.world_ok)
       = (Ok r, s')).
Proof.
  cbv zeta.
  destruct (run_without_graph_source (W := Mock.world)) as [_ [Hrun Hreturns]].
  split.
  - destruct (fst (run_analysis 5 Mock.config_without_source
                     (Mock.orchestrator Mock.world_ok)))
      as [r|e|] eqn:F; [|vm_compute in F; discriminate F|vm_compute in F; discriminate F].
    exists r. split; [reflexivity|].
    apply (Hrun 5%nat Mock.config_without_source (Mock.orchestrator Mock.world_ok) r _).
    + reflexivity.
    + rewrite <- F. apply surjective_pairing.
  - apply (Hreturns 5%nat Mock.config_without_source (Mock.orchestrator Mock.world_ok)).
    + intros size_id type_id w. simpl. unfold Mock.deploy.
      destruct (Mock.deploy_script w) as [|[]]; simpl; discriminate.
    + intros id w. simpl. unfold Mock.delete.
      destruct (Mock.delete_script w) as [|[]]; simpl; discriminate.
    + reflexivity.
    + vm_compute. reflexivity.
Defined.

(** C2 as stated fails on that run: [deploy_engine] is called (four
    times) and [retry_count] is 3, the validation error being classified
    as retryable. *)
Lemma run_without_graph_source_counterexample :
  let out := run_analysis 5 Mock.config_without_source (Mock.orchestrator Mock.world_ok) in
  has_graph_source Mock.config_without_source = false
  ∧ ∃ r,
      fst out = Ok r
      ∧ Result.status r = FAILED
      ∧ Result.retry_count r = 3
      ∧ deploy_attempts (State.trace (snd out)) = 4%nat
      ∧ ¬ (Result.retry_count r = 0 ∧ deploy_attempts (State.trace (snd out)) = 0%nat).
Proof.
  cbv zeta. split; [reflexivity|].
  eexists. split; [vm_compute; reflexivity|].
  split; [reflexivity|]. split; [reflexivity|]. split; [vm_compute; reflexivity|].
  intros [Hrc _]. discriminate Hrc.
Qed.

(** C7, as the code has it (teardown before a retry).  When the [except]
    block is entered on a retryable error with attempts left and an
    engine identifier recorded, it calls [delete_engine] on that
    identifier once.  If the call returns, the block ends in [continue]
    with the identifier cleared to [None]; if it raises, the exception
    is caught and the block ends in [continue] all the same, with the
    identifier left as it was.  The state the block leaves is the state
    the next pass of the loop starts in. *)
Theorem teardown_before_retry {W : Type} `{GAE : GAEConnection W} :
  (∀ config attempt e (s : state W) o s',
     handle_failure config attempt e s = (o, s') →
     _is_retryable_error (exn_str e) = true →
     Config.retry_on_failure config = true →
     attempt < Config.max_retries config →
     Py.truthy (Result.engine_id (State.result s)) = true →
     ∃ run how,
       State.trace s' = State.trace s ++ run
       ∧ deletions run = [(Result.engine_id (State.result s), how)]
       ∧ match how with
         | Returned _ =>
             o = Ok (Continue (attempt + 1))
             ∧ Result.engine_id (State.result s') = VNone
         | Raised _ =>
             o = Ok (Continue (attempt + 1))
             ∧ Result.engine_id (State.result s') = Result.engine_id (State.result s)
         | Hung => o = Diverge
         end)
  ∧ (∀ budget fuel config max_attempts attempt attempt' (s s1 : state W),
       (attempt <? max_attempts) = true →
       iteration fuel config attempt s = (Ok (Continue attempt'), s1) →
       retry_loop (S budget) fuel config max_attempts attempt s =
       retry_loop budget fuel config max_attempts attempt' s1).
Proof.
  split.
  - intros config attempt e s o s' H Hretryable Hretry Hleft Hid.
    apply handle_failure_spec in H
      as (run & Ht & _ & _ & _ & _ & _ & _ & _ & _ & _ & _ & Hexit).
    apply Z.ltb_lt in Hleft.
    assert (Hcond : Config.retry_on_failure config && (attempt <? Config.max_retries config)
                    = true) by (rewrite Hretry, Hleft; reflexivity).
    exists run.
    inversion Hexit; subst; try congruence.
    all: eexists; split; [exact Ht|]; split; [reflexivity|]; simpl; auto.
  - intros budget fuel config max_attempts attempt attempt' s s1 Hguard Hit.
    simpl. rewrite Hguard. unfold bind. rewrite Hit. reflexivity.
Qed.

(** The first deploy raises a transient error with an engine recorded,
    and the teardown goes through: the identifier is cleared. *)
Lemma teardown_before_retry_witness :
  let s := Mock.after_failed_deploy Mock.world_transient_then_ok in
  let out := handle_failure (Mock.config_of 1) 0 Mock.transient s in
  Result.engine_id (State.result s) = VStr "old-engine"
  ∧ fst out = Ok (Continue 1)
  ∧ Result.engine_id (State.result (snd out)) = VNone
  ∧ ∃ run how,
      State.trace (snd out) = State.trace s ++ run
      ∧ deletions run = [(Result.engine_id (State.result s), how)]
      ∧ match how with
        | Returned _ =>
            fst out = Ok (Continue (0 + 1))
            ∧ Result.engine_id (State.result (snd out)) = VNone
        | Raised _ =>
            fst out = Ok (Continue (0 + 1))
            ∧ Result.engine_id (State.result (snd out)) = Result.engine_id (State.result s)
        | Hung => fst out = Diverge
        end.
Proof.
  cbv zeta. split; [vm_compute; reflexivity|]. split; [vm_compute; reflexivity|].
  split; [vm_compute; reflexivity|].
  destruct (teardown_before_retry (W := Mock.world)) as [Hhandler _].
  apply (Hhandler (Mock.config_of 1) 0 Mock.transient
           (Mock.after_failed_deploy Mock.world_transient_then_ok) _ _ (surjective_pairing _)).
  - reflexivity.
  - reflexivity.
  - reflexivity.
  - vm_compute. reflexivity.
Defined.

(** C7 as stated fails when the teardown raises: the pass ends in
    [continue], so the next pass starts from the state it leaves, and
    the engine identifier in that state is still "old-engine", not
    [None]. *)
Lemma teardown_before_retry_counterexample :
  let s := Mock.entering_loop Mock.world_teardown_fails in
  let out := iteration 5 (Mock.config_of 1) 0 s in
  fst out = Ok (Continue 1)
  ∧ deletions (State.trace (snd out)) =
      [(VStr "old-engine", Raised (mk_exn OtherException "teardown refused"))]
  ∧ Result.engine_id (State.result (snd out)) = VStr "old-engine"
  ∧ Result.engine_id (State.result (snd out)) ≠ VNone.
Proof.
  cbv zeta. split; [vm_compute; reflexivity|]. split; [vm_compute; reflexivity|].
  split; [vm_compute; reflexivity|]. vm_compute. discriminate.
Qed.



(** C3 (state shape), where the code departs from the claim.  On a job
    record with a [state] field, no [status] field and no
    progress/total pair, the orchestrator's poller succeeds on "done",
    "finished" and "completed" only, while [GenAIGAEConnection.wait_for_job]
    succeeds on the four values of [COMPLETED_STATES]; both fail on
    "failed" and "error" and keep polling on anything else.  So on
    [{"state": "succeeded"}] the orchestrator keeps polling, until the
    run's timeout, where the other poller returns. *)
Theorem state_shape_decision :
  (∀ description (job : dict) state,
     job !! "progress" = None ∨ job !! "total" = None →
     job !! "status" = None →
     job !! "state" = Some state →
     poll_decision description job =
       if Py.in_strs state ["done"; "finished"; "completed"] then Ok true
       else if Py.in_strs state ["failed"; "error"]
       then Raise (mk_exn RuntimeError
                     (description +:+ " failed: " +:+
                      Py.str (Py.get_default job "error" (VStr "Unknown error"))))
       else Ok false)
  ∧ (∀ job_id (job : dict) state,
       job !! "progress" = None ∨ job !! "total" = None →
       job !! "status" = None →
       job !! "state" = Some state →
       GenAI.poll_decision job_id job =
         if Py.in_strs state Constants.COMPLETED_STATES then Ok true
         else if Py.in_strs state Constants.FAILED_STATES
         then Raise (mk_exn RuntimeError
                       ("Job " +:+ job_id +:+ " failed: " +:+
                        Py.str (Py.get_default job "error" (VStr "Unknown error"))))
         else Ok false)
  ∧ poll_decision "Results storage" (Mock.in_state "succeeded") = Ok false
  ∧ GenAI.poll_decision "store123" (Mock.in_state "succeeded") = Ok true
  ∧ fst (_wait_for_job 5 (VStr "store123") "Results storage"
           (Mock.entering_loop Mock.world_state_succeeded)) =
      Raise (mk_exn TimeoutError "Results storage timed out after 4002s").
Proof.
  split; [|split; [|split; [|split]]].
  - intros description job state Hpair Hstatus Hstate. unfold poll_decision.
    rewrite Hstatus, Hstate.
    destruct Hpair as [-> | ->]; [reflexivity|]. destruct (job !! "progress"); reflexivity.
  - intros job_id job state Hpair Hstatus Hstate. unfold GenAI.poll_decision, Py.get_default.
    rewrite Hstatus, Hstate. simpl. rewrite lookup_empty. simpl.
    destruct Hpair as [-> | ->]; [|destruct (job !! "progress")];
      destruct (Py.in_strs state Constants.COMPLETED_STATES); try reflexivity.
  - vm_compute. reflexivity.
  - vm_compute. reflexivity.
  - vm_compute. reflexivity.
Qed.
